(** * dmarcation: the rewrite-decision engine of the DMARC milter

    A shallow embedding of [src/milter/processor.py] and
    [src/utils/config.py], together with the parts of the Python runtime
    the two files call ([str] methods, the UTF-8 codec,
    [urllib.parse.quote] / [unquote]).

    Layout: Part I holds the definitions, Part II the lemmas and the
    theorems about them. *)

From Stdlib Require Import ZArith Lia String Ascii.
From stdpp Require Import base list gmap.

#[local] Open Scope Z_scope.

(* ================================================================== *)
(** * Part I - definitions                                             *)
(* ================================================================== *)

(** ** Python values *)

(** A Python [str] is a sequence of code points, a [bytes] object a
    sequence of octets; both are lists of integers here. *)
Abbreviation str := (list Z) (only parsing).
Abbreviation bytes := (list Z) (only parsing).

(** Literals: [py "abc"] is the [str] (or ASCII [bytes]) of the given text. *)
Definition py (s : string) : list Z :=
  map (fun a => Z.of_nat (nat_of_ascii a)) (list_ascii_of_string s).

(** The exception classes the modelled code can meet, subclasses of
    [Exception] all of them: what [except Exception] does not catch
    ([KeyboardInterrupt], a cancellation) is outside the model. *)
Inductive exn :=
  | UnicodeEncodeError
  | UnicodeDecodeError
  | KeyError
  | IndexError
  | TypeError
  | AttributeError
  | ValueError
  | UnboundLocalError
  | ConfigError
  | DMARCError
  | RuntimeError.

#[global] Instance exn_eq_dec : EqDecision exn.
Proof. solve_decision. Defined.

(** The outcome of a call that may raise. *)
Inductive result (A : Type) :=
  | Ok (a : A)
  | Raise (e : exn).
Arguments Ok {A} a.
Arguments Raise {A} e.

#[global] Instance result_ret : MRet result := @Ok.
#[global] Instance result_bind : MBind result := fun A B f m =>
  match m with
  | Ok a => f a
  | Raise e => Raise e
  end.

(** Dynamically typed values: what a configuration lookup or a dict may hold. *)
#[warnings="-register-all"]
Inductive pyvalue :=
  | VNone
  | VBool (b : bool)
  | VInt (z : Z)
  | VStr (s : list Z)
  | VList (l : list pyvalue)
  | VDict (d : gmap (list Z) pyvalue).

(** Python truthiness ([bool(v)]). *)
Definition truthy (v : pyvalue) : bool :=
  match v with
  | VNone => false
  | VBool b => b
  | VInt z => negb (z =? 0)
  | VStr s => negb (bool_decide (s = []))
  | VList l => match l with [] => false | _ => true end
  | VDict d => negb (bool_decide (size d = 0%nat))
  end.

(** ** [str] methods *)

Module Py.

(** [s.startswith(p)] *)
Fixpoint startswith (p s : str) : bool :=
  match p, s with
  | [], _ => true
  | _ :: _, [] => false
  | a :: p', b :: s' => bool_decide (a = b) && startswith p' s'
  end.

(** [sub in s] for two strings. *)
Fixpoint contains (sub s : str) : bool :=
  startswith sub s ||
  match s with
  | [] => false
  | _ :: r => contains sub r
  end.

(** The scan of [s.replace(old, new)] for a non-empty [old]: occurrences
    are taken left to right and do not overlap; [skip] counts the
    characters of a matched occurrence still to be passed over. *)
Fixpoint replace_from (old new : str) (skip : nat) (s : str) : str :=
  match s with
  | [] => []
  | c :: r =>
    match skip with
    | S k => replace_from old new k r
    | O =>
      if startswith old s
      then new ++ replace_from old new (length old - 1)%nat r
      else c :: replace_from old new 0 r
    end
  end.

(** [s.replace(old, new)]; an empty [old] matches before every character
    and at the end. *)
Definition replace (s old new : str) : str :=
  match old with
  | [] => new ++ flat_map (fun c => c :: new) s
  | _ :: _ => replace_from old new 0 s
  end.

(** [s.split(sep, maxsplit)] for a one-character separator; [None] is
    Python's default [maxsplit = -1] (no limit). *)
Fixpoint split (sep : Z) (maxsplit : option nat) (s : str) : list str :=
  match s with
  | [] => [[]]
  | c :: r =>
    if bool_decide (c = sep) then
      match maxsplit with
      | Some O => [s]
      | Some (S n) => [] :: split sep (Some n) r
      | None => [] :: split sep None r
      end
    else
      match split sep maxsplit r with
      | h :: t => (c :: h) :: t
      | [] => [[c]]
      end
  end.

(** [c.isspace()]: the white space of the Unicode character database. *)
Definition isspace (c : Z) : bool :=
  ((9 <=? c) && (c <=? 13)) || ((28 <=? c) && (c <=? 32))
  || (c =? 133) || (c =? 160) || (c =? 5760)
  || ((8192 <=? c) && (c <=? 8202))
  || (c =? 8232) || (c =? 8233) || (c =? 8239) || (c =? 8287) || (c =? 12288).

Fixpoint lstrip (s : str) : str :=
  match s with
  | [] => []
  | c :: r => if isspace c then lstrip r else s
  end.

Definition rstrip (s : str) : str := reverse (lstrip (reverse s)).

(** [s.strip()] *)
Definition strip (s : str) : str := lstrip (rstrip s).

(** [s.lower()] on the ASCII letters; header field names are ASCII, and
    no character outside ASCII lower-cases to an ASCII letter of
    [from] or [x-original-from]. *)
Definition lower_char (c : Z) : Z :=
  if (65 <=? c) && (c <=? 90) then c + 32 else c.
Definition lower (s : str) : str := map lower_char s.

(** [sep.join(parts)] *)
Fixpoint join (sep : str) (parts : list str) : str :=
  match parts with
  | [] => []
  | [p] => p
  | p :: rest => p ++ sep ++ join sep rest
  end.

End Py.

(** ** The UTF-8 codec ([str.encode], [bytes.decode]) *)

Module Utf8.

(** The octets of one code point; [None] for a surrogate (which the
    strict encoder refuses) and for a number that is no code point. *)
Definition encode_char (c : Z) : option bytes :=
  if c <? 0 then None
  else if c <? 128 then Some [c]
  else if c <? 2048 then Some [192 + c / 64; 128 + c mod 64]
  else if c <? 65536 then
    if (55296 <=? c) && (c <=? 57343) then None
    else Some [224 + c / 4096; 128 + (c / 64) mod 64; 128 + c mod 64]
  else if c <? 1114112 then
    Some [240 + c / 262144; 128 + (c / 4096) mod 64;
          128 + (c / 64) mod 64; 128 + c mod 64]
  else None.

(** The code points a [str] decoded from UTF-8 holds: the Unicode
    scalar values. *)
Definition scalar (c : Z) : Prop :=
  0 <= c < 1114112 /\ ~ (55296 <= c <= 57343).

(** [s.encode()], i.e. UTF-8 with [errors='strict']. *)
Fixpoint encode (s : str) : result bytes :=
  match s with
  | [] => Ok []
  | c :: r =>
    match encode_char c with
    | None => Raise UnicodeEncodeError
    | Some bs => r' ← encode r; Ok (bs ++ r')
    end
  end.

Definition is_cont (b : Z) : bool := (128 <=? b) && (b <=? 191).

(** The second octet of a three-octet form: no overlong form after E0,
    no surrogate after ED. *)
Definition second_ok3 (b1 b2 : Z) : bool :=
  is_cont b2 && negb ((b1 =? 224) && (b2 <? 160))
             && negb ((b1 =? 237) && (160 <=? b2)).

(** The second octet of a four-octet form: no overlong form after F0,
    nothing above U+10FFFF after F4. *)
Definition second_ok4 (b1 b2 : Z) : bool :=
  is_cont b2 && negb ((b1 =? 240) && (b2 <? 144))
             && negb ((b1 =? 244) && (144 <=? b2)).

(** One pass of the decoder: [Some c] for a decoded code point, [None]
    for an error span (an invalid start octet, the valid prefix of a
    sequence cut short by an invalid continuation, or a sequence cut
    short by the end of the data). *)
Fixpoint scan (bs : bytes) : list (option Z) :=
  match bs with
  | [] => []
  | b1 :: r1 =>
    if (0 <=? b1) && (b1 <? 128) then Some b1 :: scan r1
    else if (194 <=? b1) && (b1 <? 224) then
      match r1 with
      | [] => [None]
      | b2 :: r2 =>
        if is_cont b2
        then Some ((b1 - 192) * 64 + (b2 - 128)) :: scan r2
        else None :: scan r1
      end
    else if (224 <=? b1) && (b1 <? 240) then
      match r1 with
      | [] => [None]
      | b2 :: r2 =>
        if second_ok3 b1 b2 then
          match r2 with
          | [] => [None]
          | b3 :: r3 =>
            if is_cont b3
            then Some ((b1 - 224) * 4096 + (b2 - 128) * 64 + (b3 - 128))
                 :: scan r3
            else None :: scan r2
          end
        else None :: scan r1
      end
    else if (240 <=? b1) && (b1 <? 245) then
      match r1 with
      | [] => [None]
      | b2 :: r2 =>
        if second_ok4 b1 b2 then
          match r2 with
          | [] => [None]
          | b3 :: r3 =>
            if is_cont b3 then
              match r3 with
              | [] => [None]
              | b4 :: r4 =>
                if is_cont b4
                then Some ((b1 - 240) * 262144 + (b2 - 128) * 4096
                           + (b3 - 128) * 64 + (b4 - 128)) :: scan r4
                else None :: scan r3
              end
            else None :: scan r2
          end
        else None :: scan r1
      end
    else None :: scan r1
  end.

(** [bs.decode('utf-8', 'replace')]: every error span becomes U+FFFD. *)
Definition decode_replace (bs : bytes) : str :=
  map (fun o => default 65533 o) (scan bs).

(** [bs.decode()], i.e. UTF-8 with [errors='strict']. *)
Definition decode (bs : bytes) : result str :=
  match mapM (M := option) id (scan bs) with
  | Some s => Ok s
  | None => Raise UnicodeDecodeError
  end.

End Utf8.

(** ** [urllib.parse] *)

Module Urllib.

(** [_ALWAYS_SAFE]: the unreserved characters, letters, digits and [_.-~]. *)
Definition always_safe (b : Z) : bool :=
  ((65 <=? b) && (b <=? 90)) || ((97 <=? b) && (b <=? 122))
  || ((48 <=? b) && (b <=? 57))
  || (b =? 95) || (b =? 46) || (b =? 45) || (b =? 126).

(** The octets [quote] leaves as they are, for a given [safe] argument. *)
Definition unescaped (safe : bytes) (b : Z) : bool :=
  always_safe b || bool_decide (b ∈ safe).

(** One upper-case hexadecimal digit. *)
Definition hexdig (n : Z) : Z := if n <? 10 then 48 + n else 55 + n.

(** The quoter of one octet: itself, or ['%{:02X}'.format(b)]. *)
Definition quoter (safe : bytes) (b : Z) : str :=
  if unescaped safe b then [b]
  else [37; hexdig (b / 16); hexdig (b mod 16)].

(** [quote_from_bytes(bs, safe)] *)
Definition quote_from_bytes (bs safe : bytes) : str :=
  match bs with
  | [] => []
  | _ :: _ =>
    if forallb (unescaped safe) bs then bs
    else flat_map (quoter safe) bs
  end.

(** [quote(string)] with the default [safe='/'], UTF-8, strict. *)
Definition quote (s : str) : result str :=
  match s with
  | [] => Ok s
  | _ :: _ => bs ← Utf8.encode s; Ok (quote_from_bytes bs (py "/"))
  end.

(** The value of a hexadecimal digit of [_hexdig], either case. *)
Definition hexval (c : Z) : option Z :=
  if (48 <=? c) && (c <=? 57) then Some (c - 48)
  else if (65 <=? c) && (c <=? 70) then Some (c - 55)
  else if (97 <=? c) && (c <=? 102) then Some (c - 87)
  else None.

(** The table [_hextobyte]: two hexadecimal digits to their octet; a
    missing key is Python's [KeyError]. *)
Definition hextobyte (k : bytes) : option Z :=
  match k with
  | [h; l] => hi ← hexval h; lo ← hexval l; Some (hi * 16 + lo)
  | _ => None
  end.

(** The body of the loop over [bits[1:]]: a decoded octet and the rest
    of the item, or the item with its percent sign put back. *)
Definition unquote_item (item : bytes) : bytes :=
  match hextobyte (take 2 item) with
  | Some b => b :: drop 2 item
  | None => 37 :: item
  end.

(** The loop of [unquote_to_bytes] over the items of the split: the
    first item as it is, the others through [unquote_item]. *)
Definition unquote_bits (bits : list bytes) : bytes :=
  match bits with
  | [] => []
  | b0 :: items => b0 ++ flat_map unquote_item items
  end.

(** [unquote_to_bytes(string)] on an ASCII string. *)
Definition unquote_to_bytes (s : bytes) : bytes :=
  match s with
  | [] => []
  | _ :: _ =>
    match Py.split 37 None s with
    | [] => s
    | [_] => s
    | bits => unquote_bits bits
    end
  end.

Definition is_ascii (c : Z) : bool := (0 <=? c) && (c <=? 127).

(** What [unquote] makes of one maximal ASCII run. *)
Definition unquote_run (run : str) : str :=
  Utf8.decode_replace (unquote_to_bytes run).

(** The run read so far, unquoted; [_asciire] matches no empty run. *)
Definition flush (run : str) : str :=
  match run with
  | [] => []
  | _ :: _ => unquote_run run
  end.

(** The pieces of [_asciire.split(string)] put together again: every
    maximal ASCII run is unquoted, what lies between stays. [run] is the
    ASCII run read so far. *)
Fixpoint unquote_parts (run s : str) : str :=
  match s with
  | [] => flush run
  | c :: r =>
    if is_ascii c then unquote_parts (run ++ [c]) r
    else flush run ++ c :: unquote_parts [] r
  end.

(** [unquote(string)] with the defaults UTF-8 and [errors='replace']. *)
Definition unquote (s : str) : str :=
  if negb (Py.contains (py "%") s) then s
  else unquote_parts [] s.

(** A well-formed escape occurs in [s]: a percent sign followed by two
    hexadecimal digits. *)
Fixpoint has_escape (s : str) : bool :=
  match s with
  | [] => false
  | c :: r =>
    (bool_decide (c = 37) && bool_decide (is_Some (hextobyte (take 2 r))))
    || has_escape r
  end.

End Urllib.

(** ** [src/milter/processor.py]: the address codec *)

(** [quote_email_address(email_addr, percent_quote_char)] *)
Definition quote_email_address (email_addr percent_quote_char : str)
  : result str :=
  quoted ← Urllib.quote email_addr;
  Ok (Py.replace quoted (py "%") percent_quote_char).

(** [unquote_email_address(email_addr, percent_quote_char)] *)
Definition unquote_email_address (email_addr percent_quote_char : str) : str :=
  Urllib.unquote (Py.replace email_addr percent_quote_char (py "%")).

(** [l[i]] for a list and an index that is not negative. *)
Definition subscript {A} (l : list A) (i : nat) : result A :=
  match l !! i with
  | Some x => Ok x
  | None => Raise IndexError
  end.

(** [extract_domain(email_addr)]; the source returns the value [False]
    for an address without an at sign, [None] stands for it here. *)
Definition extract_domain (email_addr : str) : result (option str) :=
  if Py.contains (py "@") email_addr
  then d ← subscript (Py.split 64 (Some 2%nat) email_addr) 1; Ok (Some d)
  else Ok None.

(** [extract_localpart(email_addr)] *)
Definition extract_localpart (email_addr : str) : result str :=
  if Py.contains (py "@") email_addr
  then subscript (Py.split 64 (Some 2%nat) email_addr) 0
  else Ok email_addr.

(** ** [src/utils/config.py] *)

(** The configuration object, seen through its subscript [cfg[key]]: a
    value, or an exception. *)
Record Config := { getitem : str -> result pyvalue }.

(** The classes named by [except (ConfigError, KeyError)]. *)
Definition is_absence (e : exn) : bool :=
  bool_decide (e = ConfigError) || bool_decide (e = KeyError).

(** [get_config_value(cfg, key, default)] *)
Definition get_config_value (cfg : Config) (key : str) (default : pyvalue)
  : result pyvalue :=
  match getitem cfg key with
  | Ok value => Ok value
  | Raise e =>
    if is_absence e then
      let legacy_key := py "dmarc." ++ key in
      match getitem cfg legacy_key with
      | Ok value => Ok value
      | Raise e' => if is_absence e' then Ok default else Raise e'
      end
    else Raise e
  end.

(** ** [src/milter/processor.py]: the required headers *)

(** The dict [handle] builds for every captured header. *)
Record header_entry := {
  name : str;
  lower_name : str;
  value : str
}.

(** [stripped_header in required_value] for a list: equality with one of
    its members, and a [str] equals nothing but a [str]. *)
Definition str_in_list (s : str) (l : list pyvalue) : bool :=
  existsb (fun v => match v with VStr t => bool_decide (s = t) | _ => false end) l.

(** The condition of the [if] in the loop of [check_required_headers]. *)
Definition requirement_met (required_value : pyvalue) (stripped_header : str)
  : bool :=
  match required_value with
  | VBool true => true
  | VStr s => bool_decide (stripped_header = s)
  | VList l => str_in_list stripped_header l
  | _ => false
  end.

(** [d.get(key, None)]; only a dict has the method. *)
Definition dict_get (d : pyvalue) (key : str) : result pyvalue :=
  match d with
  | VDict m => Ok (default VNone (m !! key))
  | _ => Raise AttributeError
  end.

(** The [for] loop of [check_required_headers]; [hdr] is
    [required_config["header"]]. *)
Fixpoint required_loop (hdr : pyvalue) (headers : list header_entry)
  : result bool :=
  match headers with
  | [] => Ok false
  | entry :: rest =>
    required_value ← dict_get hdr (name entry);
    let stripped_header := Py.strip (value entry) in
    if requirement_met required_value stripped_header then Ok true
    else required_loop hdr rest
  end.

(** [check_required_headers(required_config, headers)] *)
Definition check_required_headers (required_config : gmap (list Z) pyvalue)
    (headers : list header_entry) : result bool :=
  match required_config !! py "header" with
  | None => Ok true
  | Some hdr => required_loop hdr headers
  end.

(** ** The collaborators of the engine *)

(** [kilter.protocol.Header] *)
Record Header := { hname : str; hvalue : bytes }.

#[global] Instance Header_eq_dec : EqDecision Header.
Proof. solve_decision. Defined.

(** [kilter.service.END] *)
Inductive position := END.

(** [kilter.protocol.Accept] and [Discard] *)
Inductive verdict := Accept | Discard.

(** The record [checkdmarc.dmarc.get_dmarc_record] returns, as far as the
    engine reads it: [record["location"]] and, for a tag [t],
    [record["parsed"]["tags"][t]["value"]]. *)
Record dmarc_record := {
  location : str;
  tags : gmap (list Z) (list Z)
}.

(** The header edits a session can be asked for. *)
Inductive call :=
  | CInsert (h : Header) (pos : position)
  | CUpdate (h : option Header) (v : bytes)
  | CDelete (h : Header).

(** What the engine needs from its surroundings, over a type [S] of
    session states: the session of the milter runtime
    ([session.headers] iterated, and its [insert], [update] and [delete],
    which leave a new state and may raise), the configuration
    [services["app_config"]] and the method [as_dict()] of the values it
    holds (an [AttributeError] for a value that has none),
    [dmarc.get_dmarc_record], [email.utils.getaddresses] where it
    returns, and [str(Address(display_name, username, domain))] of
    [email.headerregistry]. *)
Record Runtime (S : Type) := {
  session_headers : S -> list Header;
  session_insert : Header -> position -> S -> option exn * S;
  session_update : option Header -> bytes -> S -> option exn * S;
  session_delete : Header -> S -> option exn * S;
  app_config : Config;
  as_dict : pyvalue -> result (gmap (list Z) pyvalue);
  get_dmarc_record : str -> result dmarc_record;
  getaddresses : list str -> list (str * str);
  format_address : str -> str -> pyvalue -> result str
}.
Arguments session_headers {S} _ _.
Arguments session_insert {S} _ _ _ _.
Arguments session_update {S} _ _ _ _.
Arguments session_delete {S} _ _ _.
Arguments app_config {S} _.
Arguments as_dict {S} _ _.
Arguments get_dmarc_record {S} _ _.
Arguments getaddresses {S} _ _.
Arguments format_address {S} _ _ _ _.

(** The state a message is handled in: the session, the edits asked of
    it so far, and the domains looked up so far. *)
Record world (S : Type) := {
  session : S;
  calls : list call;
  lookups : list (list Z)
}.
Arguments session {S} _.
Arguments calls {S} _.
Arguments lookups {S} _.

(** Computations that read and change the world and may raise; the world
    reached when an exception is raised is kept, for the handler. *)
Definition M (S A : Type) : Type := world S -> result A * world S.

#[global] Instance M_ret {S} : MRet (M S) := fun A a w => (Ok a, w).
#[global] Instance M_bind {S} : MBind (M S) := fun A B f m w =>
  match m w with
  | (Ok a, w') => f a w'
  | (Raise e, w') => (Raise e, w')
  end.

(** A pure call that may raise. *)
Definition lift {S A} (r : result A) : M S A := fun w => (r, w).

(** [try: body except <classes>: handler] *)
Definition try_except {S A} (body : M S A) (catches : exn -> bool)
    (handler : exn -> M S A) : M S A := fun w =>
  match body w with
  | (Ok a, w') => (Ok a, w')
  | (Raise e, w') => if catches e then handler e w' else (Raise e, w')
  end.

(** Reading a local variable; [None] is a name not yet bound. *)
Definition read_local {A} (v : option A) : result A :=
  match v with
  | Some a => Ok a
  | None => Raise UnboundLocalError
  end.

(** ** [src/milter/processor.py]: the engine *)

Section Engine.

Context {S : Type} (rt : Runtime S).

(** An edit asked of the session: it is recorded, then carried out. *)
Definition edit (c : call) (op : S -> option exn * S) : M S unit := fun w =>
  let '(err, s') := op (session w) in
  let w' := {| session := s'; calls := calls w ++ [c]; lookups := lookups w |} in
  match err with
  | None => (Ok tt, w')
  | Some e => (Raise e, w')
  end.

(** [await session.headers.insert(header, position)] *)
Definition headers_insert (header : Header) (pos : position) : M S unit :=
  edit (CInsert header pos) (session_insert rt header pos).

(** [await session.headers.update(header, value)] *)
Definition headers_update (header : option Header) (v : bytes) : M S unit :=
  edit (CUpdate header v) (session_update rt header v).

(** [await session.headers.delete(header)] *)
Definition headers_delete (header : Header) : M S unit :=
  edit (CDelete header) (session_delete rt header).

(** [dmarc.get_dmarc_record(domain)]; the lookup is recorded. *)
Definition lookup_dmarc (domain : str) : M S dmarc_record := fun w =>
  (get_dmarc_record rt domain,
   {| session := session w; calls := calls w;
      lookups := lookups w ++ [domain] |}).

Definition no_mail_values : list str := [py "reject"; py "quarantine"].

(** [dmarc_record["parsed"]["tags"][tag]["value"]] *)
Definition tag_value (r : dmarc_record) (tag : str) : result str :=
  match tags r !! tag with
  | Some v => Ok v
  | None => Raise KeyError
  end.

(** [check_dmarc_rejection(domain)] *)
Definition check_dmarc_rejection (domain : str) : M S bool :=
  try_except
    (dmarc_record ← lookup_dmarc domain;
     let is_subdomain := negb (bool_decide (location dmarc_record = domain)) in
     domain_rejects ←
       (if negb is_subdomain
        then v ← lift (tag_value dmarc_record (py "p"));
             mret (bool_decide (v ∈ no_mail_values))
        else mret false);
     if (domain_rejects : bool) then mret true
     else
       subdomain_rejects ←
         (if is_subdomain
          then v ← lift (tag_value dmarc_record (py "sp"));
               mret (bool_decide (v ∈ no_mail_values))
          else mret false);
       if (subdomain_rejects : bool) then mret true
       else mret false)
    (fun e => bool_decide (e = DMARCError))
    (fun _ => mret false).

(** [check_all_dmarc_rejections(domains)] *)
Fixpoint check_all_dmarc_rejections (domains : list str) : M S bool :=
  match domains with
  | [] => mret true
  | domain :: rest =>
    r ← check_dmarc_rejection domain;
    if negb r then mret false
    else check_all_dmarc_rejections rest
  end.

(** The argument [percent_quote_char] as it comes from the
    configuration: [str.replace] takes nothing but a [str]. *)
Definition as_str (v : pyvalue) : result str :=
  match v with
  | VStr s => Ok s
  | _ => Raise TypeError
  end.

(** [rewrite_email_address(email, domain, quote_char)]. The quote symbol
    is checked to be a [str] before the address is quoted, where Python
    finds out in [replace], after [quote]; the two can only differ in
    which of two exceptions is raised. *)
Definition rewrite_email_address (email : str * str) (domain : pyvalue)
    (quote_char : pyvalue) : result str :=
  q ← as_str quote_char;
  local ← quote_email_address (snd email) q;
  format_address rt (fst email) local domain.

(** [filter(None, ...)] over the extracted domains: [False] and the
    empty string are dropped. *)
Definition filter_none (ds : list (option str)) : list str :=
  omap (fun d => match d with
                 | Some (c :: r) => Some (c :: r)
                 | _ => None
                 end) ds.

(** The element of the list [replacement_addresses] for one address. *)
Definition replacement (email : str * str) : result str :=
  domain ← get_config_value (app_config rt) (py "domain") VNone;
  quote_char ← get_config_value (app_config rt) (py "rewrite.quote_char")
                 (VStr (py "="));
  rewrite_email_address email domain quote_char.

(** [rewrite_forward(session, from_header, from_value)] *)
Definition rewrite_forward (from_header : option Header) (from_value : str)
  : M S bool :=
  let header_from_addresses := getaddresses rt [from_value] in
  extracted ← lift (mapM (fun email => extract_domain (snd email))
                         header_from_addresses);
  let from_domains := filter_none extracted in
  try_except
    (should_reject ← check_all_dmarc_rejections from_domains;
     if negb should_reject then mret true
     else
       replacement_addresses ←
         lift (mapM replacement header_from_addresses);
       let replacement_from :=
         py " " ++ Py.join (py ", ") replacement_addresses in
       original ← lift (Utf8.encode from_value);
       let new_header :=
         {| hname := py "X-Original-From"; hvalue := original |} in
       _ ← headers_insert new_header END;
       replacement ← lift (Utf8.encode replacement_from);
       _ ← headers_update from_header replacement;
       mret true)
    (fun _ => true)
    (fun _ => mret false).

(** [not original_from_value] *)
Definition falsy_str (v : option str) : bool :=
  match v with
  | Some (_ :: _) => false
  | _ => true
  end.

(** [rewrite_reverse(session, from_header, original_from_header,
    original_from_value)]; a header object is true, [None] is not. *)
Definition rewrite_reverse (from_header original_from_header : option Header)
    (original_from_value : option str) : M S bool :=
  match original_from_header, original_from_value with
  | Some original, Some (c :: r) =>
    _ ← headers_delete original;
    restored ← lift (Utf8.encode (c :: r));
    _ ← headers_update from_header restored;
    mret true
  | _, _ => mret false
  end.

(** The local variables of [handle] that the loop over the headers
    sets. [from_header] and [original_from_header] start as Python's
    [None]; [from_value] and [original_from_value] are not bound before
    the loop, which is their [None] here. *)
Record locals := {
  mail_headers : list header_entry;
  from_header : option Header;
  from_value : option str;
  original_from_header : option Header;
  original_from_value : option str
}.

Definition locals_init : locals :=
  {| mail_headers := []; from_header := None; from_value := None;
     original_from_header := None; original_from_value := None |}.

(** The body of [async for header in headers]. *)
Definition capture (l : locals) (header : Header) : result locals :=
  decoded ← Utf8.decode (hvalue header);
  let entry := {| name := hname header;
                  lower_name := Py.lower (hname header);
                  value := decoded |} in
  if bool_decide (lower_name entry = py "from") then
    Ok {| mail_headers := mail_headers l ++ [entry];
          from_header := Some header;
          from_value := Some (value entry);
          original_from_header := original_from_header l;
          original_from_value := original_from_value l |}
  else if bool_decide (lower_name entry = py "x-original-from") then
    Ok {| mail_headers := mail_headers l ++ [entry];
          from_header := from_header l;
          from_value := from_value l;
          original_from_header := Some header;
          original_from_value := Some (value entry) |}
  else
    Ok {| mail_headers := mail_headers l ++ [entry];
          from_header := from_header l;
          from_value := from_value l;
          original_from_header := original_from_header l;
          original_from_value := original_from_value l |}.

Fixpoint capture_all (l : locals) (headers : list Header) : result locals :=
  match headers with
  | [] => Ok l
  | header :: rest => l' ← capture l header; capture_all l' rest
  end.

(** The assignments to [required_config_entry] and [required_config]. *)
Definition required_config_of : result (gmap (list Z) pyvalue) :=
  required_config_entry ←
    get_config_value (app_config rt) (py "rewrite.require") VNone;
  if negb (truthy required_config_entry) then Ok ∅
  else as_dict rt required_config_entry.

(** [handle(session)] *)
Definition handle : M S verdict := fun w =>
  (l ← lift (capture_all locals_init (session_headers rt (session w)));
   required_config ← lift required_config_of;
   required ← lift (check_required_headers required_config (mail_headers l));
   if negb required then mret Accept
   else
     reverse ←
       lift (match original_from_header l with
             | None => Ok false
             | Some _ =>
               v ← get_config_value (app_config rt) (py "rewrite.reverse")
                     (VBool true);
               Ok (truthy v)
             end);
     if (reverse : bool) then
       original ← lift (read_local (original_from_value l));
       _ ← rewrite_reverse (from_header l) (original_from_header l)
             (Some original);
       mret Accept
     else
       forward ← lift (get_config_value (app_config rt) (py "rewrite.forward")
                         (VBool true));
       if truthy forward then
         v ← lift (read_local (from_value l));
         _ ← rewrite_forward (from_header l) v;
         mret Accept
       else mret Accept) w.

End Engine.

(** ** Vocabulary of the statements *)

(** A header satisfies the requirement configured under its name: [True]
    asks for the header only, a string for its stripped value, a list for
    one of its members. *)
Definition satisfies (requirements : gmap (list Z) pyvalue) (h : header_entry)
  : Prop :=
  match requirements !! name h with
  | Some (VBool true) => True
  | Some (VStr s) => Py.strip (value h) = s
  | Some (VList l) => VStr (Py.strip (value h)) ∈ l
  | _ => False
  end.

(** The tag that governs a domain: [p] when the record was found at the
    domain itself, [sp] when it was found elsewhere. *)
Definition governing_tag (r : dmarc_record) (domain : list Z) : list Z :=
  if bool_decide (location r = domain) then py "p" else py "sp".

(** The world after some more lookups. *)
Definition looked_up {S} (domains : list (list Z)) (w : world S) : world S :=
  {| session := session w; calls := calls w;
     lookups := lookups w ++ domains |}.

(** ** Fixtures *)

(** A configuration held in a dict of full keys; a missing key raises
    [KeyError]. *)
Definition dict_config (m : gmap (list Z) pyvalue) : Config :=
  {| getitem := fun k =>
       match m !! k with
       | Some v => Ok v
       | None => Raise KeyError
       end |}.

(** The configuration of [tests/test_utils_config.py]. *)
Definition test_config : Config :=
  dict_config
    (<[py "dmarc.subkey" := VStr (py "subkey")]>
       (<[py "dmarc.toplevel" := VStr (py "error")]>
          (<[py "toplevel" := VStr (py "toplevel")]> ∅))).

(** The header and the requirements of [tests/test_milter.py]. *)
Definition test_headers : list header_entry :=
  [ {| name := py "X-Some-Header"; lower_name := py "x-some-header";
       value := py " Some Value" |} ].

Definition test_requirements (required_value : pyvalue)
  : gmap (list Z) pyvalue :=
  {[ py "header" := VDict {[ py "X-Some-Header" := required_value ]} ]}.

(** Modelled from the spec: the session capability of the milter
    runtime (kilter is no part of the sources), as section 6 of the
    specification has it: the headers in order, [insert] at [END] appends,
    [update] and [delete] take a reference to an existing header. Here a
    session is the list of its headers, and a reference that names no
    header of the list is refused. *)
Definition list_session_insert (h : Header) (pos : position) (s : list Header)
  : option exn * list Header :=
  (None, s ++ [h]).

Definition list_session_update (h : option Header) (v : bytes)
    (s : list Header) : option exn * list Header :=
  match h with
  | None => (Some AttributeError, s)
  | Some h =>
    if bool_decide (h ∈ s)
    then (None,
          map (fun x => if bool_decide (x = h)
                        then {| hname := hname h; hvalue := v |} else x) s)
    else (Some ValueError, s)
  end.

Definition list_session_delete (h : Header) (s : list Header)
  : option exn * list Header :=
  if bool_decide (h ∈ s)
  then (None, filter (fun x => x <> h) s)
  else (Some ValueError, s).

(** A stand-in for [str(Address(display_name, username, domain))], right
    for a display name and a local part that need no quoting. *)
Definition plain_address (display_name username : list Z) (domain : pyvalue)
  : result (list Z) :=
  addr_spec ← match domain with
              | VStr d => Ok (username ++ py "@" ++ d)
              | VNone => Ok username
              | _ => Raise TypeError
              end;
  match display_name with
  | [] => Ok addr_spec
  | _ :: _ => Ok (display_name ++ py " <" ++ addr_spec ++ py ">")
  end.

(** A runtime for the examples: the list session, a given configuration
    and policy oracle, and, as with a mock's return value, the addresses
    [getaddresses] is to find. The values of the configuration are plain
    Python values, a [dict] among them: none has a method [as_dict]. *)
Definition test_runtime (cfg : Config)
    (oracle : list Z -> result dmarc_record)
    (addresses : list (list Z * list Z)) : Runtime (list Header) :=
  {| session_headers := fun s => s;
     session_insert := list_session_insert;
     session_update := list_session_update;
     session_delete := list_session_delete;
     app_config := cfg;
     as_dict := fun _ => Raise AttributeError;
     get_dmarc_record := oracle;
     getaddresses := fun _ => addresses;
     format_address := plain_address |}.

(** The same runtime over a configuration whose mappings are sections of
    the configuration library rather than plain dicts: [as_dict()] on a
    section returns its entries as a dict. *)
Definition with_sections {S} (rt : Runtime S) : Runtime S :=
  {| session_headers := session_headers rt;
     session_insert := session_insert rt;
     session_update := session_update rt;
     session_delete := session_delete rt;
     app_config := app_config rt;
     as_dict := fun v => match v with
                         | VDict d => Ok d
                         | _ => Raise AttributeError
                         end;
     get_dmarc_record := get_dmarc_record rt;
     getaddresses := getaddresses rt;
     format_address := format_address rt |}.

(** The world at the start of a message. *)
Definition start (headers : list Header) : world (list Header) :=
  {| session := headers; calls := []; lookups := [] |}.

(** The records of [tests/test_milter.py]. *)
Definition allow_dmarc_record : dmarc_record :=
  {| location := py "example.com";
     tags := {[ py "p" := py "none"; py "sp" := py "none" ]} |}.

Definition reject_dmarc_record : dmarc_record :=
  {| location := py "example.com";
     tags := {[ py "p" := py "reject"; py "sp" := py "quarantine" ]} |}.

Definition mixed_dmarc_record : dmarc_record :=
  {| location := py "example.com";
     tags := {[ py "p" := py "quarantine"; py "sp" := py "none" ]} |}.

(** A record with no [sp] tag. *)
Definition bare_dmarc_record : dmarc_record :=
  {| location := py "example.com"; tags := {[ py "p" := py "reject" ]} |}.

(** ** Further functions of the sources *)

(** [unrewrite_email_address(email, quote_char)]; [address_of_spec] is
    [str(Address(display_name, addr_spec=...))] of [email.headerregistry],
    which parses the address it is given and may refuse it. *)
Definition unrewrite_email_address
    (address_of_spec : list Z -> list Z -> result (list Z))
    (email : list Z * list Z) (quote_char : list Z) : result (list Z) :=
  local ← extract_localpart (snd email);
  let unquoted_address := unquote_email_address local quote_char in
  address_of_spec (fst email) unquoted_address.

(** [dmarcation.py], [main]: the port to listen on,
    [args.port or get_config_value(app_config, "milter_port", 1999)];
    [port] is the value of [--port], [None] or a string. *)
Definition listen_port (port : pyvalue) (app_config : Config)
  : result pyvalue :=
  if truthy port then Ok port
  else get_config_value app_config (py "milter_port") (VInt 1999).

(** A stand-in for [str(Address(display_name, addr_spec=...))], right
    for a display name and an address that need no quoting. *)
Definition angle_address (display_name addr_spec : list Z)
  : result (list Z) :=
  match display_name with
  | [] => Ok addr_spec
  | _ :: _ => Ok (display_name ++ py " <" ++ addr_spec ++ py ">")
  end.

(** ** Further vocabulary *)

(** The last header of the block with a given name, letter case apart. *)
Definition last_named (n : list Z) (headers : list Header) : option Header :=
  last (filter (fun h => Py.lower (hname h) = n) headers).

(** The entry [handle] records for a header whose value decodes to [v]. *)
Definition entry_of (h : Header) (v : list Z) : header_entry :=
  {| name := hname h; lower_name := Py.lower (hname h); value := v |}.

(** The world after some more edits asked of the session, in state [s]. *)
Definition edited {S} (s : S) (cs : list call) (w : world S) : world S :=
  {| session := s; calls := calls w ++ cs; lookups := lookups w |}.

(** The reverse branch of [handle] is not taken: there is no
    [X-Original-From] header, or the reverse mode is off. *)
Definition reverse_off {S} (rt : Runtime S) (l : locals) : Prop :=
  original_from_header l = None \/
  exists v, get_config_value (app_config rt) (py "rewrite.reverse") (VBool true)
            = Ok v /\ truthy v = false.

(** The domains [rewrite_forward] evaluates for a [From] value. *)
Definition from_domains {S} (rt : Runtime S) (from_value : list Z)
  : result (list (list Z)) :=
  extracted ← mapM (fun email => extract_domain (snd email))
                   (getaddresses rt [from_value]);
  Ok (filter_none extracted).

(** A header reference and the value kept beside it belong together:
    both are there, the value being the decoding of the header's, or
    neither is. *)
Definition bound_to (header : option Header) (v : option (list Z)) : Prop :=
  match header, v with
  | Some h, Some v => Utf8.decode (hvalue h) = Ok v
  | None, None => True
  | _, _ => False
  end.

(** A character of ASCII. *)
Definition ascii_char (c : Z) : Prop := 0 <= c < 128.

(** Escapes read from left to right, to be compared with the split of
    [Urllib.unquote_to_bytes]: a percent sign followed by two hexadecimal
    digits is the octet they name; every other character stays, a percent
    sign that is not so followed among them. *)
Fixpoint escapes_decoded (s : list Z) : list Z :=
  match s with
  | [] => []
  | c :: r =>
    if bool_decide (c = 37) then
      match r with
      | h :: l :: r' =>
        match Urllib.hextobyte [h; l] with
        | Some b => b :: escapes_decoded r'
        | None => 37 :: escapes_decoded r
        end
      | _ => 37 :: escapes_decoded r
      end
    else c :: escapes_decoded r
  end.

(** What becomes of a run of ASCII characters: its escapes decoded, and
    the octets read as UTF-8, with U+FFFD for what is ill-formed. *)
Definition run_decoded (run : list Z) : list Z :=
  Utf8.decode_replace (escapes_decoded run).

(** A string put together from its runs of ASCII characters and the
    characters outside ASCII between them. *)
Definition of_runs (run : list Z) (rest : list (Z * list Z)) : list Z :=
  run ++ flat_map (fun p => fst p :: snd p) rest.

(** The first run is of ASCII characters, and so is every other, after a
    character outside ASCII. *)
Definition ascii_runs (run : list Z) (rest : list (Z * list Z)) : Prop :=
  Forall ascii_char run /\
  Forall (fun p => ~ ascii_char (fst p) /\ Forall ascii_char (snd p)) rest.

(* ================================================================== *)
(** * Part II - lemmas and theorems                                    *)
(* ================================================================== *)

(** ** Tactics *)

(** Turns a boolean test on integers into the proposition it decides. *)
Ltac reflect_tests H :=
  unfold is_true in H;
  repeat first
    [ rewrite andb_true_iff in H | rewrite andb_false_iff in H
    | rewrite orb_true_iff in H | rewrite orb_false_iff in H
    | rewrite negb_true_iff in H | rewrite negb_false_iff in H
    | rewrite Z.leb_le in H | rewrite Z.leb_gt in H
    | rewrite Z.ltb_lt in H | rewrite Z.ltb_ge in H
    | rewrite Z.eqb_eq in H | rewrite Z.eqb_neq in H ].

(** Settles the test of the conditional at the head of an equation. *)
Ltac decide_if :=
  match goal with
  | |- (if ?c then _ else _) = _ =>
    let E := fresh "E" in
    destruct c eqn:E; try (exfalso; reflect_tests E; lia)
  end.

(** ** Facts about the [str] methods *)

Module PyFacts.

Lemma replace_char s c new :
  Py.replace s [c] new
  = flat_map (fun x => if bool_decide (x = c) then new else [x]) s.
Proof.
  unfold Py.replace. induction s as [|x s IH]; [done|].
  cbn [Py.replace_from Py.startswith flat_map length Nat.sub].
  rewrite andb_true_r, IH.
  destruct (decide (c = x)) as [->|Hne].
  - by rewrite !bool_decide_true.
  - rewrite !bool_decide_false by congruence. done.
Qed.

Lemma contains_char c s : Py.contains [c] s = bool_decide (c ∈ s).
Proof.
  induction s as [|x s IH]; [done|].
  cbn [Py.contains Py.startswith]. rewrite IH, andb_true_r.
  rewrite <- bool_decide_or. apply bool_decide_ext.
  rewrite elem_of_cons. done.
Qed.

Lemma split_cons_sep sep s :
  Py.split sep None (sep :: s) = [] :: Py.split sep None s.
Proof. cbn [Py.split]. by rewrite bool_decide_true. Qed.

Lemma split_cons_other sep m c s :
  c <> sep ->
  exists h t, Py.split sep m s = h :: t /\ Py.split sep m (c :: s) = (c :: h) :: t.
Proof.
  intros Hc. cbn [Py.split]. rewrite bool_decide_false by done.
  destruct s as [|x s]; [by eexists _, _|].
  cbn [Py.split]. case_bool_decide.
  - destruct m as [[|n]|]; by eexists _, _.
  - destruct (Py.split sep m s); by eexists _, _.
Qed.

Lemma lstrip_spec s :
  exists l, s = l ++ Py.lstrip s /\
    Forall (fun c => Py.isspace c = true) l /\
    (forall c r, Py.lstrip s = c :: r -> Py.isspace c = false).
Proof.
  induction s as [|c s (l & E & Hl & Hhd)].
  - exists []. by repeat split.
  - cbn [Py.lstrip]. destruct (Py.isspace c) eqn:Ec.
    + exists (c :: l). split; [by rewrite E at 1|]. split; [by constructor|done].
    + exists []. split; [done|]. split; [constructor|]. by intros ? ? [= <- <-].
Qed.

(** [strip] takes white space, and nothing else, off both ends, and
    leaves none at either end. *)
Lemma strip_spec s :
  exists l r, s = l ++ Py.strip s ++ r /\
    Forall (fun c => Py.isspace c = true) l /\
    Forall (fun c => Py.isspace c = true) r /\
    (forall c t, Py.strip s = c :: t -> Py.isspace c = false) /\
    (forall t c, Py.strip s = t ++ [c] -> Py.isspace c = false).
Proof.
  unfold Py.strip, Py.rstrip.
  destruct (lstrip_spec (reverse s)) as (r' & Er & Hr & Hlast).
  set (m := Py.lstrip (reverse s)) in *.
  destruct (lstrip_spec (reverse m)) as (l & El & Hl & Hfirst).
  exists l, (reverse r'). repeat split.
  - rewrite app_assoc, <- El, <- reverse_app, <- Er. by rewrite reverse_involutive.
  - done.
  - by apply Forall_reverse.
  - done.
  - intros t c Et. rewrite Et in El.
    apply (f_equal reverse) in El.
    rewrite reverse_involutive, app_assoc, reverse_app in El.
    cbn in El. by apply (Hlast c (reverse (l ++ t))).
Qed.

End PyFacts.

(** ** Facts about the UTF-8 codec *)

Module Utf8Facts.
Import Utf8.

Lemma scan_unfold b1 r1 :
  scan (b1 :: r1) =
      if (0 <=? b1) && (b1 <? 128) then Some b1 :: scan r1
      else if (194 <=? b1) && (b1 <? 224) then
        match r1 with
        | [] => [None]
        | b2 :: r2 =>
          if is_cont b2
          then Some ((b1 - 192) * 64 + (b2 - 128)) :: scan r2
          else None :: scan r1
        end
      else if (224 <=? b1) && (b1 <? 240) then
        match r1 with
        | [] => [None]
        | b2 :: r2 =>
          if second_ok3 b1 b2 then
            match r2 with
            | [] => [None]
            | b3 :: r3 =>
              if is_cont b3
              then Some ((b1 - 224) * 4096 + (b2 - 128) * 64 + (b3 - 128))
                   :: scan r3
              else None :: scan r2
            end
          else None :: scan r1
        end
      else if (240 <=? b1) && (b1 <? 245) then
        match r1 with
        | [] => [None]
        | b2 :: r2 =>
          if second_ok4 b1 b2 then
            match r2 with
            | [] => [None]
            | b3 :: r3 =>
              if is_cont b3 then
                match r3 with
                | [] => [None]
                | b4 :: r4 =>
                  if is_cont b4
                  then Some ((b1 - 240) * 262144 + (b2 - 128) * 4096
                             + (b3 - 128) * 64 + (b4 - 128)) :: scan r4
                  else None :: scan r3
                end
              else None :: scan r2
            end
          else None :: scan r1
        end
      else None :: scan r1.
Proof. destruct r1 as [|? [|? [|? ?]]]; reflexivity. Qed.

Lemma scan_ascii c rest : 0 <= c < 128 -> scan (c :: rest) = Some c :: scan rest.
Proof. intros. rewrite scan_unfold. decide_if. done. Qed.

Lemma scan_two c rest :
  128 <= c < 2048 ->
  scan (192 + c / 64 :: 128 + c mod 64 :: rest) = Some c :: scan rest.
Proof.
  intros Hc.
  assert (2 <= c / 64 < 32) by (Z.div_mod_to_equations; lia).
  assert (0 <= c mod 64 < 64) by (Z.div_mod_to_equations; lia).
  assert (c = c / 64 * 64 + c mod 64) by (Z.div_mod_to_equations; lia).
  generalize dependent (c / 64). generalize dependent (c mod 64).
  intros m Hm d Hd E.
  rewrite scan_unfold. unfold is_cont. repeat decide_if.
  do 2 f_equal. lia.
Qed.

Lemma scan_three c rest :
  2048 <= c < 65536 -> ~ (55296 <= c <= 57343) ->
  scan (224 + c / 4096 :: 128 + (c / 64) mod 64 :: 128 + c mod 64 :: rest)
  = Some c :: scan rest.
Proof.
  intros Hc Hs.
  assert (0 <= c / 4096 < 16) by (Z.div_mod_to_equations; lia).
  assert (0 <= (c / 64) mod 64 < 64) by (Z.div_mod_to_equations; lia).
  assert (0 <= c mod 64 < 64) by (Z.div_mod_to_equations; lia).
  assert (c = c / 4096 * 4096 + (c / 64) mod 64 * 64 + c mod 64)
    by (Z.div_mod_to_equations; lia).
  assert (c / 4096 = 0 -> 32 <= (c / 64) mod 64) by (Z.div_mod_to_equations; lia).
  assert (c / 4096 = 13 -> (c / 64) mod 64 < 32) by (Z.div_mod_to_equations; lia).
  generalize dependent (c / 4096). generalize dependent ((c / 64) mod 64).
  generalize dependent (c mod 64). intros m3 H3 m2 H2 d1 H1 E Hlo Hhi.
  rewrite scan_unfold. unfold second_ok3, is_cont. repeat decide_if.
  do 2 f_equal. lia.
Qed.

Lemma scan_four c rest :
  65536 <= c < 1114112 ->
  scan (240 + c / 262144 :: 128 + (c / 4096) mod 64 :: 128 + (c / 64) mod 64
        :: 128 + c mod 64 :: rest)
  = Some c :: scan rest.
Proof.
  intros Hc.
  assert (0 <= c / 262144 < 5) by (Z.div_mod_to_equations; lia).
  assert (0 <= (c / 4096) mod 64 < 64) by (Z.div_mod_to_equations; lia).
  assert (0 <= (c / 64) mod 64 < 64) by (Z.div_mod_to_equations; lia).
  assert (0 <= c mod 64 < 64) by (Z.div_mod_to_equations; lia).
  assert (c = c / 262144 * 262144 + (c / 4096) mod 64 * 4096
              + (c / 64) mod 64 * 64 + c mod 64)
    by (Z.div_mod_to_equations; lia).
  assert (c / 262144 = 0 -> 16 <= (c / 4096) mod 64)
    by (Z.div_mod_to_equations; lia).
  assert (c / 262144 = 4 -> (c / 4096) mod 64 < 16)
    by (Z.div_mod_to_equations; lia).
  generalize dependent (c / 262144). generalize dependent ((c / 4096) mod 64).
  generalize dependent ((c / 64) mod 64). generalize dependent (c mod 64).
  intros m4 H4 m3 H3 m2 H2 d1 H1 E Hlo Hhi.
  rewrite scan_unfold. unfold second_ok4, is_cont. repeat decide_if.
  do 2 f_equal. lia.
Qed.

Lemma encode_char_scalar c :
  scalar c -> exists bs, encode_char c = Some bs /\
    Forall (fun b => 0 <= b < 256) bs /\
    forall rest, scan (bs ++ rest) = Some c :: scan rest.
Proof.
  intros [Hr Hs]. unfold encode_char.
  destruct (Z.ltb_spec c 0); [lia|].
  destruct (Z.ltb_spec c 128).
  { eexists; split; [done|]. split; [repeat constructor; lia|].
    intros. by apply scan_ascii. }
  destruct (Z.ltb_spec c 2048).
  { eexists; split; [done|]. split.
    - repeat constructor; Z.div_mod_to_equations; lia.
    - intros. by apply scan_two. }
  destruct (Z.ltb_spec c 65536).
  { destruct (Z.leb_spec 55296 c); destruct (Z.leb_spec c 57343);
      cbn [andb]; try lia;
      (eexists; split; [done|]; split;
       [repeat constructor; Z.div_mod_to_equations; lia
       |intros; apply scan_three; lia]). }
  destruct (Z.ltb_spec c 1114112); [|lia].
  eexists; split; [done|]. split.
  - repeat constructor; Z.div_mod_to_equations; lia.
  - intros. by apply scan_four.
Qed.

Lemma encode_scalars s :
  Forall scalar s -> exists bs, encode s = Ok bs /\
    Forall (fun b => 0 <= b < 256) bs /\ scan bs = map Some s.
Proof.
  induction 1 as [|c s Hc _ (bs & E & Hb & Hs)]; [by exists []|].
  destruct (encode_char_scalar c Hc) as (cs & Ec & Hcb & Hcs).
  exists (cs ++ bs). cbn [encode]. rewrite Ec, E. split; [done|].
  split; [by apply Forall_app|]. rewrite Hcs, Hs. done.
Qed.

Lemma decode_replace_encode s bs :
  Forall scalar s -> encode s = Ok bs -> decode_replace bs = s.
Proof.
  intros Hs E. destruct (encode_scalars s Hs) as (bs' & E' & _ & Hscan).
  rewrite E in E'. injection E' as <-. unfold decode_replace.
  rewrite Hscan, map_map. cbn. apply map_id.
Qed.

Lemma scan_all_ascii s : Forall (fun c => 0 <= c < 128) s -> scan s = map Some s.
Proof.
  induction 1 as [|c s Hc _ IH]; [done|].
  rewrite scan_ascii by lia. cbn [map]. by f_equal.
Qed.

Lemma decode_replace_ascii s :
  Forall (fun c => 0 <= c < 128) s -> decode_replace s = s.
Proof.
  intros H. unfold decode_replace. rewrite scan_all_ascii by done.
  rewrite map_map. apply map_id.
Qed.

End Utf8Facts.

(** ** Facts about [urllib.parse] *)

Module UrllibFacts.
Import Utf8 Urllib PyFacts Utf8Facts.


Lemma split_nil_or_cons sep m s : exists h t, Py.split sep m s = h :: t.
Proof.
  destruct s as [|c s]; [by eexists _, _|].
  cbn [Py.split]. case_bool_decide.
  - destruct m as [[|n]|]; by eexists _, _.
  - destruct (Py.split sep m s); by eexists _, _.
Qed.

Lemma split_single sep s b0 : Py.split sep None s = [b0] -> b0 = s.
Proof.
  revert b0. induction s as [|c s IH]; intros b0; cbn [Py.split].
  - by intros [= <-].
  - case_bool_decide.
    + destruct (split_nil_or_cons sep None s) as (h & t & ->). discriminate.
    + destruct (split_nil_or_cons sep None s) as (h & t & E). rewrite E.
      intros [= <- ->]. f_equal. by apply IH.
Qed.

Lemma unquote_to_bytes_bits s :
  unquote_to_bytes s = unquote_bits (Py.split 37 None s).
Proof.
  unfold unquote_to_bytes. destruct s as [|c s]; [done|].
  destruct (split_nil_or_cons 37 None (c :: s)) as (b0 & [|i items] & E);
    rewrite E; [|done].
  apply split_single in E as ->. cbn [unquote_bits flat_map].
  by rewrite app_nil_r.
Qed.

Lemma unquote_bits_other c s :
  c <> 37 ->
  unquote_bits (Py.split 37 None (c :: s)) = c :: unquote_bits (Py.split 37 None s).
Proof.
  intros Hc. destruct (split_cons_other 37 None c s Hc) as (h & t & -> & ->).
  done.
Qed.

Lemma hextobyte_not_percent h l b : hextobyte [h; l] = Some b -> h <> 37 /\ l <> 37.
Proof.
  unfold hextobyte. intros H. split; intros ->.
  - change (hexval 37) with (@None Z) in H. discriminate.
  - change (hexval 37) with (@None Z) in H. destruct (hexval h); discriminate.
Qed.

Lemma unquote_bits_percent s :
  unquote_bits (Py.split 37 None (37 :: s))
  = match hextobyte (take 2 s) with
    | Some b => b :: unquote_bits (Py.split 37 None (drop 2 s))
    | None => 37 :: unquote_bits (Py.split 37 None s)
    end.
Proof.
  rewrite split_cons_sep. cbn [unquote_bits app flat_map].
  destruct (hextobyte (take 2 s)) as [b|] eqn:E.
  - destruct s as [|h [|l s]]; try discriminate.
    change (take 2 (h :: l :: s)) with [h; l] in E.
    change (drop 2 (h :: l :: s)) with s.
    destruct (hextobyte_not_percent _ _ _ E) as [Hh Hl].
    destruct (split_cons_other 37 None l s Hl) as (h1 & t1 & E1 & E2).
    destruct (split_cons_other 37 None h (l :: s) Hh) as (h2 & t2 & E3 & E4).
    rewrite E4. rewrite E2 in E3. injection E3 as <- <-.
    rewrite E1. cbn [flat_map unquote_bits].
    unfold unquote_item at 1.
    change (take 2 (h :: l :: h1)) with [h; l].
    change (drop 2 (h :: l :: h1)) with h1. by rewrite E.
  - destruct (split_nil_or_cons 37 None s) as (h & t & Es). rewrite Es.
    cbn [flat_map unquote_bits]. unfold unquote_item at 1.
    assert (hextobyte (take 2 h) = None) as ->; [|done].
    destruct s as [|x [|y s]].
    + cbn in Es. by injection Es as <- <-.
    + cbn in Es. case_bool_decide; injection Es as <- <-; done.
    + destruct (decide (x = 37)) as [->|Hx].
      { rewrite split_cons_sep in Es. by injection Es as <- <-. }
      destruct (decide (y = 37)) as [->|Hy].
      { destruct (split_cons_other 37 None x (37 :: s) Hx) as (h1 & t1 & E1 & E2).
        rewrite split_cons_sep in E1. injection E1 as <- <-.
        rewrite E2 in Es. by injection Es as <- <-. }
      destruct (split_cons_other 37 None y s Hy) as (h1 & t1 & E1 & E2).
      destruct (split_cons_other 37 None x (y :: s) Hx) as (h2 & t2 & E3 & E4).
      rewrite E2 in E3. injection E3 as <- <-.
      rewrite E4 in Es. injection Es as <- <-. exact E.
Qed.

Lemma hexdig_spec n :
  0 <= n < 16 ->
  hexval (hexdig n) = Some n /\ always_safe (hexdig n) = true /\ hexdig n <> 37.
Proof.
  intros Hn.
  pose (check := fun n => bool_decide (hexval (hexdig n) = Some n)
                          && always_safe (hexdig n)
                          && negb (hexdig n =? 37)).
  assert (forallb check (seqZ 0 16) = true) as Hall by by vm_compute.
  rewrite forallb_forall in Hall. specialize (Hall n).
  rewrite <- list_elem_of_In, elem_of_seqZ in Hall.
  specialize (Hall ltac:(lia)). unfold check in Hall.
  apply andb_true_iff in Hall as [[H1 H2]%andb_true_iff H3].
  apply bool_decide_eq_true in H1. apply negb_true_iff, Z.eqb_neq in H3.
  done.
Qed.

Lemma unescaped_slash b :
  unescaped [47] b = true -> 0 <= b < 128 /\ b <> 37.
Proof.
  unfold unescaped, always_safe. intros H.
  apply orb_true_iff in H as [H|H].
  - reflect_tests H. lia.
  - apply bool_decide_eq_true in H. apply list_elem_of_singleton in H. lia.
Qed.

Lemma quoter_unquote b rest :
  0 <= b < 256 ->
  unquote_bits (Py.split 37 None (quoter [47] b ++ rest))
  = b :: unquote_bits (Py.split 37 None rest).
Proof.
  intros Hb. unfold quoter. destruct (unescaped [47] b) eqn:U.
  - apply unescaped_slash in U as [_ U]. by apply unquote_bits_other.
  - cbn [app]. rewrite unquote_bits_percent.
    change (take 2 (?h :: ?l :: rest)) with [h; l].
    change (drop 2 (?h :: ?l :: rest)) with rest.
    assert (0 <= b / 16 < 16) as H1 by (Z.div_mod_to_equations; lia).
    assert (0 <= b mod 16 < 16) as H2 by (Z.div_mod_to_equations; lia).
    unfold hextobyte.
    destruct (hexdig_spec _ H1) as (-> & _ & _).
    destruct (hexdig_spec _ H2) as (-> & _ & _).
    cbn. do 2 f_equal. Z.div_mod_to_equations; lia.
Qed.

Lemma unquote_quoted_bytes bs :
  Forall (fun b => 0 <= b < 256) bs ->
  unquote_to_bytes (flat_map (quoter [47]) bs) = bs.
Proof.
  rewrite unquote_to_bytes_bits.
  induction 1 as [|b bs Hb _ IH]; [done|].
  cbn [flat_map]. rewrite quoter_unquote by done. by rewrite IH.
Qed.

Lemma quote_from_bytes_flat bs safe :
  quote_from_bytes bs safe = flat_map (quoter safe) bs.
Proof.
  unfold quote_from_bytes. destruct bs as [|b bs]; [done|].
  destruct (forallb _ _) eqn:E; [|done].
  induction (b :: bs) as [|x l IH]; [done|].
  cbn [forallb] in E. apply andb_true_iff in E as [Ex El].
  cbn [flat_map]. unfold quoter at 1. rewrite Ex. cbn [app]. f_equal. auto.
Qed.

Lemma quoted_chars bs :
  Forall (fun b => 0 <= b < 256) bs ->
  Forall (fun x => x = 37 \/ unescaped [47] x = true)
         (flat_map (quoter [47]) bs).
Proof.
  induction 1 as [|b bs Hb _ IH]; [constructor|].
  cbn [flat_map]. apply Forall_app. split; [|done].
  unfold quoter. destruct (unescaped [47] b) eqn:U.
  - apply Forall_cons_2; [by right|constructor].
  - assert (0 <= b / 16 < 16) as H1 by (Z.div_mod_to_equations; lia).
    assert (0 <= b mod 16 < 16) as H2 by (Z.div_mod_to_equations; lia).
    destruct (hexdig_spec _ H1) as (_ & S1 & _).
    destruct (hexdig_spec _ H2) as (_ & S2 & _).
    assert (unescaped [47] (hexdig (b / 16)) = true)
      by (unfold unescaped; by rewrite S1).
    assert (unescaped [47] (hexdig (b mod 16)) = true)
      by (unfold unescaped; by rewrite S2).
    repeat apply Forall_cons_2; auto.
Qed.

Lemma quoted_ascii bs :
  Forall (fun b => 0 <= b < 256) bs ->
  Forall (fun x => 0 <= x < 128) (flat_map (quoter [47]) bs).
Proof.
  intros H. eapply Forall_impl; [by apply quoted_chars|].
  intros x [->|U]; [lia|]. by apply unescaped_slash in U as [? _].
Qed.

Lemma unquote_bits_no_escape s :
  has_escape s = false -> unquote_bits (Py.split 37 None s) = s.
Proof.
  induction s as [|c s IH]; [done|]. cbn [has_escape].
  intros [H1 H2]%orb_false_iff. destruct (decide (c = 37)) as [->|Hc].
  - rewrite unquote_bits_percent.
    rewrite bool_decide_true, andb_true_l in H1 by done.
    apply bool_decide_eq_false in H1.
    destruct (hextobyte (take 2 s)); [by destruct H1|]. by rewrite IH.
  - rewrite unquote_bits_other by done. by rewrite IH.
Qed.

Lemma no_percent_no_escape s : 37 ∉ s -> has_escape s = false.
Proof.
  induction s as [|c s IH]; [done|]. intros H.
  apply not_elem_of_cons in H as [H1 H2]. cbn [has_escape].
  rewrite bool_decide_false by done. by rewrite IH.
Qed.

Lemma hextobyte_length k b : hextobyte k = Some b -> length k = 2%nat.
Proof. destruct k as [|? [|? [|? ?]]]; done. Qed.

Lemma has_escape_app_l run s :
  has_escape (run ++ s) = false -> has_escape run = false.
Proof.
  induction run as [|c run IH]; [done|]. cbn [app has_escape].
  intros [H1 H2]%orb_false_iff. rewrite (IH H2), orb_false_r.
  destruct (bool_decide (c = 37)); [|done]. cbn [andb] in *.
  apply bool_decide_eq_false in H1. apply bool_decide_eq_false.
  intros [b Hb]. apply H1. exists b.
  rewrite take_app_le; [done|].
  apply hextobyte_length in Hb. rewrite length_take in Hb. lia.
Qed.

Lemma has_escape_app_r run s :
  has_escape (run ++ s) = false -> has_escape s = false.
Proof.
  induction run as [|c run IH]; [done|]. cbn [app has_escape].
  intros [_ H2]%orb_false_iff. auto.
Qed.

Lemma is_ascii_range c : is_ascii c = true <-> 0 <= c < 128.
Proof. unfold is_ascii. rewrite andb_true_iff, Z.leb_le, Z.leb_le. lia. Qed.

Lemma unquote_parts_ascii run s :
  Forall (fun c => 0 <= c < 128) s -> unquote_parts run s = flush (run ++ s).
Proof.
  intros H. revert run. induction H as [|c s Hc _ IH]; intros run.
  - by rewrite app_nil_r.
  - cbn [unquote_parts]. rewrite (proj2 (is_ascii_range c) Hc).
    by rewrite IH, <- app_assoc.
Qed.

Lemma flush_no_escape run :
  Forall (fun c => 0 <= c < 128) run -> has_escape run = false ->
  flush run = run.
Proof.
  intros Ha He. destruct run as [|c run]; [done|].
  unfold flush, unquote_run.
  rewrite unquote_to_bytes_bits, unquote_bits_no_escape by done.
  by apply decode_replace_ascii.
Qed.

Lemma unquote_parts_no_escape run s :
  Forall (fun c => 0 <= c < 128) run -> has_escape (run ++ s) = false ->
  unquote_parts run s = run ++ s.
Proof.
  revert run. induction s as [|c s IH]; intros run Ha He.
  - rewrite app_nil_r in *. by apply flush_no_escape.
  - cbn [unquote_parts]. destruct (is_ascii c) eqn:Ec.
    + rewrite IH.
      * by rewrite <- app_assoc.
      * apply Forall_app. split; [done|]. repeat constructor;
          by apply is_ascii_range.
      * by rewrite <- app_assoc.
    + fold (flush run). rewrite flush_no_escape;
        [|done|by eapply has_escape_app_l].
      f_equal. f_equal. apply (IH []); [constructor|].
      apply (has_escape_app_r (run ++ [c])). by rewrite <- app_assoc.
Qed.

Lemma unquote_no_escape s : has_escape s = false -> unquote s = s.
Proof.
  intros H. unfold unquote. destruct (negb _); [done|].
  by apply (unquote_parts_no_escape []).
Qed.

Lemma unquote_ascii s :
  Forall (fun c => 0 <= c < 128) s ->
  unquote s = decode_replace (unquote_to_bytes s).
Proof.
  intros Ha. unfold unquote. change (py "%") with [37].
  rewrite contains_char. case_bool_decide; cbn [negb].
  - rewrite unquote_parts_ascii by done. by destruct s.
  - rewrite unquote_to_bytes_bits, unquote_bits_no_escape
      by by apply no_percent_no_escape.
    by rewrite decode_replace_ascii.
Qed.

Lemma unquote_quote_from_bytes bs :
  Forall (fun b => 0 <= b < 256) bs ->
  unquote (quote_from_bytes bs [47]) = decode_replace bs.
Proof.
  intros H. rewrite quote_from_bytes_flat.
  rewrite unquote_ascii by by apply quoted_ascii.
  by rewrite unquote_quoted_bytes.
Qed.

Lemma replace_replace q s :
  Forall (fun x => x = 37 \/ x <> q) s ->
  Py.replace (Py.replace s [37] [q]) [q] [37] = s.
Proof.
  rewrite !replace_char. induction 1 as [|x s Hx _ IH]; [done|].
  cbn [flat_map]. case_bool_decide as E.
  - subst x. cbn [app flat_map]. rewrite bool_decide_true by done.
    cbn [app]. by rewrite IH.
  - cbn [app flat_map]. destruct Hx as [?|Hx]; [done|].
    rewrite bool_decide_false by done. cbn [app]. by rewrite IH.
Qed.

(** The split of [unquote_to_bytes] reads the escapes from left to
    right. *)
Lemma unquote_bits_scan s :
  unquote_bits (Py.split 37 None s) = escapes_decoded s.
Proof.
  assert (forall n s, (length s <= n)%nat ->
            unquote_bits (Py.split 37 None s) = escapes_decoded s) as H;
    [|by apply (H (length s))].
  clear s. induction n as [|n IH]; intros s Hn.
  - destruct s; [done|]. cbn in Hn. lia.
  - destruct s as [|c r]; [done|]. cbn [length] in Hn.
    cbn [escapes_decoded]. case_bool_decide as Hc.
    + subst c. rewrite unquote_bits_percent.
      destruct r as [|h [|l r']].
      * done.
      * cbn [take hextobyte]. f_equal. apply IH. cbn in *. lia.
      * change (take 2 (h :: l :: r')) with [h; l].
        change (drop 2 (h :: l :: r')) with r'.
        destruct (hextobyte [h; l]); f_equal; apply IH; cbn in *; lia.
    + rewrite unquote_bits_other by done. f_equal. apply IH. lia.
Qed.

Lemma flush_run_decoded run : flush run = run_decoded run.
Proof.
  destruct run as [|c run]; [done|]. unfold flush, unquote_run, run_decoded.
  by rewrite unquote_to_bytes_bits, unquote_bits_scan.
Qed.

Lemma unquote_parts_app_ascii run0 run tail :
  Forall ascii_char run ->
  unquote_parts run0 (run ++ tail) = unquote_parts (run0 ++ run) tail.
Proof.
  intros H. revert run0. induction H as [|c run Hc _ IH]; intros run0.
  - by rewrite app_nil_r.
  - cbn [app unquote_parts]. rewrite (proj2 (is_ascii_range c) Hc).
    by rewrite IH, <- app_assoc.
Qed.

Lemma unquote_parts_of_runs run rest :
  ascii_runs run rest ->
  unquote_parts [] (of_runs run rest)
  = of_runs (run_decoded run)
      (map (fun p => (fst p, run_decoded (snd p))) rest).
Proof.
  intros [Hrun Hrest]. revert run Hrun.
  induction Hrest as [|[c a] rest [Hc Ha] _ IH]; intros run Hrun;
    unfold of_runs; cbn [flat_map map fst snd].
  - rewrite unquote_parts_app_ascii by done. cbn [app unquote_parts].
    by rewrite flush_run_decoded, app_nil_r.
  - rewrite unquote_parts_app_ascii by done. cbn [app unquote_parts].
    destruct (is_ascii c) eqn:Ec; [by apply is_ascii_range in Ec|].
    rewrite flush_run_decoded. do 2 f_equal. by apply IH.
Qed.

Lemma unquote_as_parts s : unquote s = unquote_parts [] s.
Proof.
  unfold unquote. change (py "%") with [37]. rewrite contains_char.
  case_bool_decide; cbn [negb]; [done|].
  symmetry. apply (unquote_parts_no_escape []); [done|].
  by apply no_percent_no_escape.
Qed.

(** Every string is made of runs of ASCII characters and the characters
    outside ASCII between them. *)
Lemma runs_exist s :
  exists run rest, ascii_runs run rest /\ s = of_runs run rest.
Proof.
  induction s as [|c s (run & rest & [Hrun Hrest] & ->)].
  - exists [], []. by repeat split.
  - destruct (is_ascii c) eqn:Ec.
    + exists (c :: run), rest. split; [|done]. split; [|done].
      constructor; [by apply is_ascii_range|done].
    + exists [], ((c, run) :: rest). split; [|done]. split; [done|].
      constructor; [|done]. split; [|done].
      intros Hc. apply (proj2 (is_ascii_range c)) in Hc. congruence.
Qed.

End UrllibFacts.


(** ** The address codec *)

(** The cases of [tests/test_milter.py]. *)
Example quote_test :
  quote_email_address (py "someone@example.com") (py "=")
  = Ok (py "someone=40example.com") /\
  quote_email_address (py "someone@example.com") (py "~")
  = Ok (py "someone~40example.com").
Proof. split; reflexivity. Qed.

Example unquote_test :
  unquote_email_address (py "someone=40example.com") (py "=")
  = py "someone@example.com" /\
  unquote_email_address (py "someone~40example.com") (py "~")
  = py "someone@example.com".
Proof. split; reflexivity. Qed.

(** A lone surrogate cannot be encoded, and [quote] raises. *)
Example quote_surrogate :
  quote_email_address [55296] (py "=") = Raise UnicodeEncodeError.
Proof. reflexivity. Qed.

(** An escape that decodes to no valid UTF-8 becomes U+FFFD. *)
Example unquote_invalid_utf8 :
  unquote_email_address (py "a=FFb") (py "=") = [97; 65533; 98].
Proof. reflexivity. Qed.

Section Codec.
Import Utf8 Urllib PyFacts Utf8Facts UrllibFacts.

(** C1. For every local part [x] of Unicode scalar values and every
    one-character quote symbol [q] that [quote] does not leave unescaped
    (no letter, digit, or one of [_.-~/]), encoding does not raise and
    decoding the encoding gives [x] back:
    [unquote_email_address(quote_email_address(x, q), q) == x]. *)
Theorem quote_unquote_roundtrip (x : list Z) (q : Z) :
  Forall scalar x ->
  unescaped (py "/") q = false ->
  exists e, quote_email_address x [q] = Ok e /\
            unquote_email_address e [q] = x.
Proof.
  intros Hx Hq. change (py "/") with [47] in Hq.
  unfold quote_email_address, unquote_email_address, quote.
  change (py "%") with [37]. change (py "/") with [47].
  destruct x as [|c x]; [by eexists|].
  destruct (encode_scalars _ Hx) as (bs & E & Hb & _). rewrite E.
  eexists. split; [done|].
  rewrite replace_replace.
  - rewrite unquote_quote_from_bytes by done.
    by apply decode_replace_encode.
  - rewrite quote_from_bytes_flat.
    eapply Forall_impl; [by apply quoted_chars|].
    intros y [->|U]; [by left|right]. congruence.
Qed.

(** The round trip at the address of the tests, followed by three
    characters outside ASCII, with the default quote symbol. *)
Lemma quote_unquote_roundtrip_witness :
  exists e,
    quote_email_address (py "someone@example.com" ++ [233; 8364; 128512])
      (py "=") = Ok e /\
    unquote_email_address e (py "=")
    = py "someone@example.com" ++ [233; 8364; 128512].
Proof.
  apply (quote_unquote_roundtrip
           (py "someone@example.com" ++ [233; 8364; 128512]) 61).
  - apply Forall_forall. intros c Hc. unfold scalar.
    cbv in Hc. repeat (apply elem_of_cons in Hc as [-> | Hc]; [lia|]).
    by apply elem_of_nil in Hc.
  - reflexivity.
Defined.

(** The hypothesis on [q] is needed: with the tilde of the tests as quote
    symbol, a local part that holds a tilde does not come back. *)
Example roundtrip_fails_for_tilde :
  quote_email_address (py "a~b") (py "~") = Ok (py "a~b") /\
  unquote_email_address (py "a~b") (py "~") = py "a%b".
Proof. split; reflexivity. Qed.

(** C7, as stated, fails: a malformed percent sequence does not make
    [unquote_email_address] give its input back. The quote symbol has
    become a percent sign, and a well-formed sequence next to the
    malformed one is decoded all the same. *)
Lemma unquote_malformed_not_unmodified :
  unquote_email_address (py "a=40b=zz") (py "=") = py "a@b%zz" /\
  unquote_email_address (py "a=40b=zz") (py "=") <> py "a=40b=zz" /\
  unquote_email_address (py "=zz") (py "=") = py "%zz" /\
  unquote_email_address (py "=zz") (py "=") <> py "=zz".
Proof. repeat split; done. Qed.

(** C7, amended. [unquote_email_address] never raises (it is a total
    function). After the quote symbol has been replaced by the percent
    sign, the string is read run by run: in every run of ASCII
    characters a percent sign followed by two hexadecimal digits is
    decoded to the octet they name, every other character stays, a
    percent sign that is not so followed (a malformed sequence) among
    them, and the octets of the run are read as UTF-8; the characters
    outside ASCII stay where they are. So a well-formed sequence next to
    a malformed one is decoded all the same; and when no percent sign is
    followed by two hexadecimal digits, the result is the substituted
    string: the malformed sequences as they are, with a percent sign
    where the quote symbol was. *)
Theorem unquote_malformed_kept (email_addr percent_quote_char : list Z) :
  let substituted := Py.replace email_addr percent_quote_char (py "%") in
  (has_escape substituted = false ->
   unquote_email_address email_addr percent_quote_char = substituted) /\
  (exists run rest, ascii_runs run rest /\ substituted = of_runs run rest) /\
  (forall run rest,
     ascii_runs run rest -> substituted = of_runs run rest ->
     unquote_email_address email_addr percent_quote_char
     = of_runs (run_decoded run)
         (map (fun p => (fst p, run_decoded (snd p))) rest)).
Proof.
  cbv zeta. unfold unquote_email_address. split; [|split].
  - intros H. by apply unquote_no_escape.
  - apply runs_exist.
  - intros run rest Hruns ->. rewrite unquote_as_parts.
    by apply unquote_parts_of_runs.
Qed.

Lemma unquote_malformed_kept_witness :
  unquote_email_address (py "a=4=zz=") (py "=") = py "a%4%zz%" /\
  unquote_email_address (py "a=40b=zz" ++ 233 :: py "=4=C3=A9") (py "=")
  = py "a@b%zz" ++ 233 :: py "%4" ++ [233].
Proof.
  split.
  - exact (proj1 (unquote_malformed_kept (py "a=4=zz=") (py "=")) eq_refl).
  - apply (proj2 (proj2 (unquote_malformed_kept
                           (py "a=40b=zz" ++ 233 :: py "=4=C3=A9") (py "=")))
             (py "a%40b%zz") [(233, py "%4%C3%A9")]); [|reflexivity].
    split.
    + apply Forall_forall. intros c Hc. unfold ascii_char.
      cbv in Hc. repeat (apply elem_of_cons in Hc as [-> | Hc]; [lia|]).
      by apply elem_of_nil in Hc.
    + apply Forall_cons_2; [|constructor]. split.
      * unfold ascii_char. cbn. lia.
      * apply Forall_forall. intros c Hc. unfold ascii_char.
        cbv in Hc. repeat (apply elem_of_cons in Hc as [-> | Hc]; [lia|]).
        by apply elem_of_nil in Hc.
Defined.

End Codec.

(** ** Splitting an address *)

Section Split.
Import PyFacts.

Lemma split_no_sep sep m s : sep ∉ s -> Py.split sep m s = [s].
Proof.
  induction s as [|c s IH]; [done|].
  intros [Hc Hs]%not_elem_of_cons. cbn [Py.split].
  rewrite bool_decide_false by done. by rewrite IH.
Qed.

Lemma split_app_sep sep n a r :
  sep ∉ a ->
  Py.split sep (Some (S n)) (a ++ sep :: r) = a :: Py.split sep (Some n) r.
Proof.
  induction a as [|c a IH]; cbn [app Py.split].
  - intros _. by rewrite bool_decide_true.
  - intros [Hc Ha]%not_elem_of_cons.
    rewrite bool_decide_false by done. by rewrite IH.
Qed.

Lemma split_limit_zero sep s : Py.split sep (Some 0%nat) s = [s].
Proof.
  induction s as [|c s IH]; [done|]. cbn [Py.split].
  case_bool_decide; [done|]. by rewrite IH.
Qed.

Lemma not_elem_by_test (c : Z) (l : list Z) :
  bool_decide (c ∈ l) = false -> c ∉ l.
Proof. apply bool_decide_eq_false_1. Qed.

Lemma contains_at s : Py.contains (py "@") s = bool_decide (64 ∈ s).
Proof. apply contains_char. Qed.

(** C9, as stated, fails for an address with more than one at sign:
    [split("@", 2)] cuts at the second one too, and [extract_domain]
    returns what lies between the first and the second. *)
Lemma extract_domain_two_ats :
  extract_domain (py "a@b@c") = Ok (Some (py "b")) /\
  extract_domain (py "a@b@c") <> Ok (Some (py "b@c")).
Proof. split; done. Qed.

(** C9, amended. Neither function raises. For a string without an at
    sign, [extract_localpart] returns the string and [extract_domain]
    returns [False]. Otherwise [extract_localpart] returns what precedes
    the first at sign, and [extract_domain] returns what lies between the
    first at sign and the second one, or the end of the string when there
    is no second one. *)
Theorem extract_parts_spec (a b c : list Z) :
  64 ∉ a -> 64 ∉ b ->
  (extract_localpart a = Ok a /\ extract_domain a = Ok None) /\
  (extract_localpart (a ++ 64 :: b) = Ok a /\
   extract_domain (a ++ 64 :: b) = Ok (Some b)) /\
  (extract_localpart (a ++ 64 :: b ++ 64 :: c) = Ok a /\
   extract_domain (a ++ 64 :: b ++ 64 :: c) = Ok (Some b)).
Proof.
  intros Ha Hb. unfold extract_localpart, extract_domain.
  rewrite !contains_at. split; [|split].
  - by rewrite bool_decide_false.
  - rewrite bool_decide_true by set_solver.
    rewrite split_app_sep, split_no_sep by done. done.
  - rewrite bool_decide_true by set_solver.
    rewrite !split_app_sep, split_limit_zero by done. done.
Qed.

Lemma extract_parts_spec_witness :
  (extract_localpart (py "someone") = Ok (py "someone") /\
   extract_domain (py "someone") = Ok None) /\
  (extract_localpart (py "someone+foo@example.com") = Ok (py "someone+foo") /\
   extract_domain (py "someone+foo@example.com") = Ok (Some (py "example.com"))) /\
  (extract_localpart (py "someone@example.com@x") = Ok (py "someone") /\
   extract_domain (py "someone@example.com@x") = Ok (Some (py "example.com"))).
Proof.
  pose proof (extract_parts_spec (py "someone") (py "example.com") (py "x")) as H.
  destruct H as (H1 & _ & H3).
  - by apply not_elem_by_test.
  - by apply not_elem_by_test.
  - split; [exact H1|]. split; [|exact H3].
    pose proof (extract_parts_spec (py "someone+foo") (py "example.com") [])
      as H.
    destruct H as (_ & H2 & _).
    + by apply not_elem_by_test.
    + by apply not_elem_by_test.
    + exact H2.
Defined.

End Split.

(** ** The configuration resolver *)

(** C8. [get_config_value(cfg, key, default)] returns [cfg[key]] when
    that lookup yields a value; otherwise, the direct key being absent
    ([ConfigError] or [KeyError]), the value at ["dmarc." + key] when
    there is one; otherwise, both being absent, the default. In none of
    the three cases does it raise. *)
Theorem get_config_value_spec (cfg : Config) (key : list Z) (default : pyvalue) :
  (forall v, getitem cfg key = Ok v ->
     get_config_value cfg key default = Ok v) /\
  (forall e v, getitem cfg key = Raise e -> is_absence e = true ->
     getitem cfg (py "dmarc." ++ key) = Ok v ->
     get_config_value cfg key default = Ok v) /\
  (forall e e', getitem cfg key = Raise e -> is_absence e = true ->
     getitem cfg (py "dmarc." ++ key) = Raise e' -> is_absence e' = true ->
     get_config_value cfg key default = Ok default).
Proof.
  unfold get_config_value. repeat split.
  - by intros v ->.
  - by intros e v -> -> ->.
  - by intros e e' -> -> -> ->.
Qed.

Lemma get_config_value_spec_witness :
  get_config_value test_config (py "toplevel") VNone = Ok (VStr (py "toplevel")) /\
  get_config_value test_config (py "subkey") VNone = Ok (VStr (py "subkey")) /\
  get_config_value test_config (py "nosuchkey") (VStr (py "default"))
  = Ok (VStr (py "default")).
Proof.
  split; [|split].
  - apply (proj1 (get_config_value_spec test_config (py "toplevel") VNone)).
    by vm_compute.
  - apply (proj1 (proj2 (get_config_value_spec test_config (py "subkey") VNone))
             KeyError); by vm_compute.
  - apply (proj2 (proj2 (get_config_value_spec test_config (py "nosuchkey")
                           (VStr (py "default")))) KeyError KeyError);
      by vm_compute.
Defined.

(** Another exception of the lookup is not an absence, and is not caught. *)
Example get_config_value_other_exception :
  get_config_value {| getitem := fun _ => Raise TypeError |} (py "domain") VNone
  = Raise TypeError.
Proof. reflexivity. Qed.

(** ** The required headers *)

Lemma str_in_list_elem s l : str_in_list s l = true <-> VStr s ∈ l.
Proof.
  unfold str_in_list. induction l as [|v l IH]; cbn [existsb].
  - split; [done|]. by intros ?%elem_of_nil.
  - rewrite orb_true_iff, IH, elem_of_cons.
    destruct v; try (split; [intros [?|?]|intros [?|?]]; (done || by right)).
    rewrite bool_decide_eq_true.
    split; (intros [?|?]; [left; congruence|by right]).
Qed.

Lemma requirement_met_satisfies m h :
  requirement_met (default VNone (m !! name h)) (Py.strip (value h)) = true
  <-> satisfies m h.
Proof.
  unfold satisfies. destruct (m !! name h) as [[|[]| | | |]|]; cbn; try done.
  - by rewrite bool_decide_eq_true.
  - apply str_in_list_elem.
Qed.

Lemma required_loop_spec m headers :
  exists b, required_loop (VDict m) headers = Ok b /\
            (b = true <-> exists h, h ∈ headers /\ satisfies m h).
Proof.
  induction headers as [|h headers (b & E & Hb)].
  - exists false. split; [done|]. split; [done|].
    by intros (h & ?%elem_of_nil & _).
  - cbn [required_loop dict_get mbind result_bind].
    destruct (requirement_met _ _) eqn:R.
    + exists true. split; [done|]. split; [|done]. intros _. exists h.
      split; [by left|]. by apply requirement_met_satisfies.
    + exists b. split; [done|]. rewrite Hb. split.
      * intros (h' & ? & ?). exists h'. split; [by right|done].
      * intros (h' & [->|?]%elem_of_cons & Hs); [|by exists h'].
        apply requirement_met_satisfies in Hs. congruence.
Qed.

(** C6. Without a ["header"] entry in the requirement configuration,
    [check_required_headers] returns true. With one that is a mapping, it
    returns (and does not raise) true if and only if some captured header
    satisfies the requirement configured under exactly its name, the
    value being stripped of surrounding white space; so it returns false
    when no header does, and when no required header is there at all. *)
Theorem check_required_headers_spec
    (required_config : gmap (list Z) pyvalue) (headers : list header_entry) :
  (required_config !! py "header" = None ->
     check_required_headers required_config headers = Ok true) /\
  (forall m, required_config !! py "header" = Some (VDict m) ->
     exists b, check_required_headers required_config headers = Ok b /\
               (b = true <-> exists h, h ∈ headers /\ satisfies m h)).
Proof.
  unfold check_required_headers. split.
  - by intros ->.
  - intros m ->. apply required_loop_spec.
Qed.

Lemma check_required_headers_spec_witness :
  check_required_headers ∅ test_headers = Ok true /\
  exists b,
    check_required_headers
      (test_requirements (VList [VStr (py "A Value"); VStr (py "Some Value")]))
      test_headers = Ok b /\
    (b = true <->
     exists h, h ∈ test_headers /\
       satisfies {[ py "X-Some-Header" :=
                    VList [VStr (py "A Value"); VStr (py "Some Value")] ]} h).
Proof.
  split.
  - apply (proj1 (check_required_headers_spec ∅ test_headers)).
    apply lookup_empty.
  - apply (proj2 (check_required_headers_spec _ test_headers)).
    apply lookup_singleton_eq.
Defined.

(** The cases of [tests/test_milter.py]. *)
Example required_not_required : check_required_headers ∅ [] = Ok true.
Proof. reflexivity. Qed.

Example required_header_must_be_present :
  check_required_headers (test_requirements (VBool true)) [] = Ok false /\
  check_required_headers (test_requirements (VBool true)) test_headers = Ok true.
Proof. split; by vm_compute. Qed.

Example required_specific_value :
  check_required_headers (test_requirements (VStr (py "A Value"))) test_headers
  = Ok false /\
  check_required_headers (test_requirements (VStr (py "Some Value"))) test_headers
  = Ok true.
Proof. split; by vm_compute. Qed.

Example required_list_value :
  check_required_headers (test_requirements (VList [VStr (py "A Value")]))
    test_headers = Ok false /\
  check_required_headers
    (test_requirements (VList [VStr (py "A Value"); VStr (py "Some Value")]))
    test_headers = Ok true.
Proof. split; by vm_compute. Qed.

(** A ["header"] entry that is no mapping has no [get]. *)
Example required_header_not_a_mapping :
  check_required_headers {[ py "header" := VStr (py "X-Some-Header") ]}
    test_headers = Raise AttributeError.
Proof. by vm_compute. Qed.

(** ** The DMARC evaluator *)

Section Evaluator.
Context {S : Type} (rt : Runtime S).

(** The decision of [check_dmarc_rejection] as a function of the answer
    of the oracle; the world only gains the lookup. *)
Lemma check_dmarc_rejection_run (domain : list Z) (w : world S) :
  check_dmarc_rejection rt domain w
  = (match get_dmarc_record rt domain with
     | Ok r =>
       match tags r !! governing_tag r domain with
       | Some v => Ok (bool_decide (v ∈ [py "reject"; py "quarantine"]))
       | None => Raise KeyError
       end
     | Raise e => if bool_decide (e = DMARCError) then Ok false else Raise e
     end, looked_up [domain] w).
Proof.
  unfold check_dmarc_rejection, try_except, lookup_dmarc, governing_tag,
    tag_value, looked_up, lift, no_mail_values, mbind, M_bind, mret, M_ret.
  destruct (get_dmarc_record rt domain) as [r|e].
  - destruct (bool_decide (location r = domain)); cbn [negb].
    + destruct (tags r !! py "p") as [v|];
        [by destruct (bool_decide (v ∈ _))|done].
    + destruct (tags r !! py "sp") as [v|];
        [by destruct (bool_decide (v ∈ _))|done].
  - by destruct (bool_decide (e = DMARCError)).
Qed.

(** C3, amended. [check_dmarc_rejection(domain)] looks the domain up
    once. When the record has its governing tag ([p] for a record found
    at the domain itself, [sp] otherwise), it returns whether the tag is
    [reject] or [quarantine]. When the lookup fails with a [DMARCError],
    it returns false. When the record lacks the governing tag, the
    [KeyError] is not caught. *)
Theorem check_dmarc_rejection_spec (domain : list Z) (w : world S) :
  snd (check_dmarc_rejection rt domain w) = looked_up [domain] w /\
  (forall r v, get_dmarc_record rt domain = Ok r ->
     tags r !! governing_tag r domain = Some v ->
     fst (check_dmarc_rejection rt domain w)
     = Ok (bool_decide (v ∈ [py "reject"; py "quarantine"]))) /\
  (get_dmarc_record rt domain = Raise DMARCError ->
     fst (check_dmarc_rejection rt domain w) = Ok false) /\
  (forall r, get_dmarc_record rt domain = Ok r ->
     tags r !! governing_tag r domain = None ->
     fst (check_dmarc_rejection rt domain w) = Raise KeyError).
Proof.
  rewrite check_dmarc_rejection_run. cbn [fst snd]. repeat split.
  - by intros r v -> ->.
  - by intros ->.
  - by intros r -> ->.
Qed.

(** The decision does not depend on the world. *)
Lemma check_dmarc_rejection_fst (domain : list Z) (w w' : world S) :
  fst (check_dmarc_rejection rt domain w)
  = fst (check_dmarc_rejection rt domain w').
Proof. by rewrite !check_dmarc_rejection_run. Qed.

Lemma looked_up_app (a b : list (list Z)) (w : world S) :
  looked_up b (looked_up a w) = looked_up (a ++ b) w.
Proof. unfold looked_up. cbn. by rewrite app_assoc. Qed.

Lemma check_all_cons (domain : list Z) (rest : list (list Z)) (w : world S) :
  check_all_dmarc_rejections rt (domain :: rest) w
  = match fst (check_dmarc_rejection rt domain w) with
    | Ok true => check_all_dmarc_rejections rt rest (looked_up [domain] w)
    | Ok false => (Ok false, looked_up [domain] w)
    | Raise e => (Raise e, looked_up [domain] w)
    end.
Proof.
  cbn [check_all_dmarc_rejections]. unfold mbind, M_bind, mret, M_ret.
  rewrite check_dmarc_rejection_run. cbn [fst].
  by destruct (match get_dmarc_record rt domain with
               | Ok _ => _
               | Raise _ => _
               end) as [[]|].
Qed.

Lemma check_all_true (domains : list (list Z)) (w : world S) :
  fst (check_all_dmarc_rejections rt domains w) = Ok true <->
  forall d, d ∈ domains -> fst (check_dmarc_rejection rt d w) = Ok true.
Proof.
  revert w. induction domains as [|d ds IH]; intros w.
  - split; [|done]. by intros _ d ?%elem_of_nil.
  - rewrite check_all_cons.
    destruct (fst (check_dmarc_rejection rt d w)) as [[]|e] eqn:E.
    + rewrite IH. split.
      * intros H x [->|Hx]%elem_of_cons; [done|].
        rewrite (check_dmarc_rejection_fst x w (looked_up [d] w)). auto.
      * intros H x Hx.
        rewrite <- (check_dmarc_rejection_fst x w (looked_up [d] w)).
        apply H. by right.
    + split; [done|]. intros H. specialize (H d ltac:(by left)). congruence.
    + split; [done|]. intros H. specialize (H d ltac:(by left)). congruence.
Qed.

Lemma check_all_first_false (pre post : list (list Z)) (d : list Z)
    (w : world S) :
  (forall x, x ∈ pre -> fst (check_dmarc_rejection rt x w) = Ok true) ->
  fst (check_dmarc_rejection rt d w) = Ok false ->
  check_all_dmarc_rejections rt (pre ++ d :: post) w
  = (Ok false, looked_up (pre ++ [d]) w).
Proof.
  revert w. induction pre as [|x pre IH]; intros w Hpre Hd.
  - cbn [app]. by rewrite check_all_cons, Hd.
  - cbn [app]. rewrite check_all_cons, (Hpre x) by by left.
    rewrite IH.
    + by rewrite looked_up_app.
    + intros y Hy.
      rewrite <- (check_dmarc_rejection_fst y w). apply Hpre. by right.
    + by rewrite <- (check_dmarc_rejection_fst d w).
Qed.

(** C4. [check_all_dmarc_rejections(domains)] returns true if and only
    if [check_dmarc_rejection] returns true for every domain of the
    sequence; and it returns false at the first domain for which
    [check_dmarc_rejection] returns false, the domains after it not being
    looked up. *)
Theorem check_all_dmarc_rejections_spec (domains : list (list Z))
    (w : world S) :
  (fst (check_all_dmarc_rejections rt domains w) = Ok true <->
   forall d, d ∈ domains -> fst (check_dmarc_rejection rt d w) = Ok true) /\
  (forall pre d post, domains = pre ++ d :: post ->
     (forall x, x ∈ pre -> fst (check_dmarc_rejection rt x w) = Ok true) ->
     fst (check_dmarc_rejection rt d w) = Ok false ->
     check_all_dmarc_rejections rt domains w
     = (Ok false, looked_up (pre ++ [d]) w)).
Proof.
  split; [apply check_all_true|].
  intros pre d post ->. apply check_all_first_false.
Qed.

End Evaluator.

(** The cases of [tests/test_milter.py]. *)
Example dmarc_test_cases :
  let rt r := test_runtime (dict_config ∅) (fun _ => Ok r) [] in
  fst (check_dmarc_rejection (rt allow_dmarc_record) (py "example.com") (start []))
  = Ok false /\
  fst (check_dmarc_rejection (rt reject_dmarc_record) (py "example.com") (start []))
  = Ok true /\
  fst (check_dmarc_rejection (rt allow_dmarc_record)
         (py "somewhere.example.com") (start [])) = Ok false /\
  fst (check_dmarc_rejection (rt reject_dmarc_record)
         (py "somewhere.example.com") (start [])) = Ok true /\
  fst (check_dmarc_rejection
         (test_runtime (dict_config ∅) (fun _ => Raise DMARCError) [])
         (py "example.com") (start [])) = Ok false.
Proof. repeat split; by vm_compute. Qed.

(** C3, as stated, fails for a record that lacks its governing tag: the
    subscript raises [KeyError], which [except dmarc.DMARCError] does not
    catch. *)
Lemma check_dmarc_rejection_missing_tag :
  fst (check_dmarc_rejection
         (test_runtime (dict_config ∅) (fun _ => Ok bare_dmarc_record) [])
         (py "somewhere.example.com") (start []))
  = Raise KeyError /\
  fst (check_dmarc_rejection
         (test_runtime (dict_config ∅) (fun _ => Ok bare_dmarc_record) [])
         (py "somewhere.example.com") (start []))
  <> Ok false.
Proof. split; by vm_compute. Qed.

Lemma check_dmarc_rejection_spec_witness :
  fst (check_dmarc_rejection
         (test_runtime (dict_config ∅) (fun _ => Ok reject_dmarc_record) [])
         (py "somewhere.example.com") (start []))
  = Ok (bool_decide (py "quarantine" ∈ [py "reject"; py "quarantine"])) /\
  fst (check_dmarc_rejection
         (test_runtime (dict_config ∅) (fun _ => Raise DMARCError) [])
         (py "example.com") (start [])) = Ok false /\
  fst (check_dmarc_rejection
         (test_runtime (dict_config ∅) (fun _ => Ok bare_dmarc_record) [])
         (py "somewhere.example.com") (start [])) = Raise KeyError.
Proof.
  split; [|split].
  - apply (proj1 (proj2 (check_dmarc_rejection_spec _ _ _))
             reject_dmarc_record); by vm_compute.
  - apply (proj1 (proj2 (proj2 (check_dmarc_rejection_spec _ _ _)))).
    reflexivity.
  - apply (proj2 (proj2 (proj2 (check_dmarc_rejection_spec _ _ _)))
             bare_dmarc_record); by vm_compute.
Defined.

Lemma check_all_dmarc_rejections_spec_witness :
  fst (check_all_dmarc_rejections
         (test_runtime (dict_config ∅) (fun _ => Ok reject_dmarc_record) [])
         [py "example.com"; py "somewhere.example.com"] (start []))
  = Ok true /\
  check_all_dmarc_rejections
    (test_runtime (dict_config ∅) (fun _ => Ok mixed_dmarc_record) [])
    [py "example.com"; py "somewhere.example.com"; py "never.example.com"]
    (start [])
  = (Ok false,
     looked_up [py "example.com"; py "somewhere.example.com"] (start [])).
Proof.
  split.
  - apply (proj1 (check_all_dmarc_rejections_spec _ _ _)).
    intros d Hd.
    apply elem_of_cons in Hd as [->|Hd]; [by vm_compute|].
    apply elem_of_cons in Hd as [->|Hd]; [by vm_compute|].
    by apply elem_of_nil in Hd.
  - apply (proj2 (check_all_dmarc_rejections_spec _ _ _)
             [py "example.com"] (py "somewhere.example.com")
             [py "never.example.com"]).
    + reflexivity.
    + intros x Hx. apply elem_of_cons in Hx as [->|Hx]; [by vm_compute|].
      by apply elem_of_nil in Hx.
    + by vm_compute.
Defined.

(** ** The rewrite engine *)

(** Unfolds the plumbing of the computations. *)
Ltac run_M := unfold lift, try_except, mbind, M_bind, mret, M_ret.

Section EngineFacts.
Context {S : Type} (rt : Runtime S).

Lemma rewrite_reverse_guard (from_header original_from_header : option Header)
    (original_from_value : option (list Z)) (w : world S) :
  original_from_header = None \/ falsy_str original_from_value = true ->
  rewrite_reverse rt from_header original_from_header original_from_value w
  = (Ok false, w).
Proof.
  unfold rewrite_reverse.
  destruct original_from_header, original_from_value as [[|]|];
    intros [?|?]; done.
Qed.

(** What [handle] does once the headers are captured and the required
    headers are found, with an [X-Original-From] header there and
    the reverse mode on. *)
Lemma handle_reverse (w : world S) (l : locals)
    (required_config : gmap (list Z) pyvalue) (original : Header)
    (reverse : pyvalue) :
  capture_all locals_init (session_headers rt (session w)) = Ok l ->
  required_config_of rt = Ok required_config ->
  check_required_headers required_config (mail_headers l) = Ok true ->
  original_from_header l = Some original ->
  get_config_value (app_config rt) (py "rewrite.reverse") (VBool true)
  = Ok reverse ->
  truthy reverse = true ->
  handle rt w
  = match original_from_value l with
    | None => (Raise UnboundLocalError, w)
    | Some v =>
      match rewrite_reverse rt (from_header l) (Some original) (Some v) w with
      | (Ok _, w') => (Ok Accept, w')
      | (Raise e, w') => (Raise e, w')
      end
    end.
Proof.
  intros Hl Hrc Hreq Ho Hrev Ht. unfold handle. run_M.
  rewrite Hl, Hrc, Hreq, Ho, Hrev. unfold result_bind.
  rewrite Ht. cbn [negb read_local].
  destruct (original_from_value l) as [v|]; [|done].
  cbn [read_local]. by destruct (rewrite_reverse _ _ _ _ _) as [[]].
Qed.

(** X25. The part of the guard of [rewrite_reverse] that is there: when
    [handle] takes the reverse branch (the headers are captured, the
    required headers are found, an [X-Original-From] header is there and
    the reverse mode is on) and the value of the [X-Original-From] header
    is missing (empty), the engine asks the session for no edit, leaves
    the world as it was, and accepts the message. *)
Theorem reverse_without_original_value (w : world S) (l : locals)
    (required_config : gmap (list Z) pyvalue) (original : Header)
    (reverse : pyvalue) :
  capture_all locals_init (session_headers rt (session w)) = Ok l ->
  required_config_of rt = Ok required_config ->
  check_required_headers required_config (mail_headers l) = Ok true ->
  original_from_header l = Some original ->
  get_config_value (app_config rt) (py "rewrite.reverse") (VBool true)
  = Ok reverse ->
  truthy reverse = true ->
  original_from_value l = Some [] ->
  handle rt w = (Ok Accept, w).
Proof.
  intros Hl Hrc Hreq Ho Hrev Ht Hv.
  rewrite (handle_reverse w l required_config original reverse) by done.
  rewrite Hv, rewrite_reverse_guard; [done|by right].
Qed.

(** With a value there, the reverse branch deletes the [X-Original-From]
    header before it looks at the [From] header at all, whatever the
    session answers. *)
Lemma reverse_deletes_first (from_header : option Header) (original : Header)
    (v : list Z) (w : world S) :
  v <> [] ->
  exists rest,
    calls (snd (rewrite_reverse rt from_header (Some original) (Some v) w))
    = calls w ++ CDelete original :: rest.
Proof.
  intros Hv. destruct v as [|c v]; [done|].
  unfold rewrite_reverse, headers_delete, headers_update, edit. run_M.
  unfold result_bind.
  destruct (session_delete rt original (session w)) as [[e|] s1];
    [by exists []|].
  destruct (Utf8.encode (c :: v)) as [bs|e]; [|by exists []].
  cbn [session calls lookups].
  destruct (session_update rt from_header bs s1) as [[e|] s2];
    cbn [snd calls]; rewrite <- app_assoc; by eexists.
Qed.

End EngineFacts.

(** The reverse rewrite of the specification: the [From] header gets the
    original value back, and the [X-Original-From] header is gone. *)
Example handle_reverse_end_to_end :
  let from := {| hname := py "From";
                 hvalue := py "Some One <someone=40example.com@dmarc.example.com>" |} in
  let original := {| hname := py "X-Original-From";
                     hvalue := py "Some One <someone@example.com>" |} in
  handle (test_runtime (dict_config ∅) (fun _ => Raise DMARCError) [])
         (start [from; original])
  = (Ok Accept,
     {| session := [ {| hname := py "From";
                        hvalue := py "Some One <someone@example.com>" |} ];
        calls := [ CDelete original;
                   CUpdate (Some from) (py "Some One <someone@example.com>") ];
        lookups := [] |}).
Proof. by vm_compute. Qed.

(** C5: a message with an [X-Original-From] header and no [From]
    header, under the default configuration, takes the reverse branch.
    The guard of [rewrite_reverse] looks at the [X-Original-From] header
    and its value only: the header is deleted, the update is asked for
    with no [From] header to update, and the [AttributeError] of that
    call leaves [rewrite_reverse], which has no [try], and [handle]. The
    message is mutated, and not accepted. *)
Theorem reverse_without_from_mutates :
  let original := {| hname := py "X-Original-From";
                     hvalue := py "Some One <someone@example.com>" |} in
  handle (test_runtime (dict_config ∅) (fun _ => Raise DMARCError) [])
         (start [original])
  = (Raise AttributeError,
     {| session := [];
        calls := [ CDelete original;
                   CUpdate None (py "Some One <someone@example.com>") ];
        lookups := [] |}).
Proof. by vm_compute. Qed.

Lemma reverse_without_original_value_witness :
  let from := {| hname := py "From"; hvalue := py "someone@example.com" |} in
  let original := {| hname := py "X-Original-From"; hvalue := [] |} in
  handle (test_runtime (dict_config ∅) (fun _ => Raise DMARCError) [])
         (start [from; original])
  = (Ok Accept, start [from; original]).
Proof.
  cbv zeta.
  eapply (reverse_without_original_value
            (test_runtime (dict_config ∅) (fun _ => Raise DMARCError) [])
            _ _ ∅ {| hname := py "X-Original-From"; hvalue := [] |}
            (VBool true)).
  - by vm_compute.
  - by vm_compute.
  - by vm_compute.
  - by vm_compute.
  - by vm_compute.
  - reflexivity.
  - by vm_compute.
Defined.

Section Forward.
Context {S : Type} (rt : Runtime S).
Import PyFacts.

Lemma extract_domain_no_at (addresses : list (list Z * list Z)) :
  Forall (fun email => 64 ∉ email.2) addresses ->
  mapM (fun email => extract_domain (snd email)) addresses
  = Ok (map (fun _ => None) addresses).
Proof.
  induction 1 as [|email addresses He _ IH]; [done|].
  cbn [mapM map]. rewrite IH. unfold extract_domain.
  change (py "@") with [64]. rewrite contains_char.
  by rewrite bool_decide_false.
Qed.

Lemma filter_none_nones {A} (l : list A) :
  filter_none (map (fun _ => None) l) = [].
Proof. by induction l. Qed.

(** C10. [check_all_dmarc_rejections] of no domain returns true and looks
    nothing up. Consequently, in the forward branch, a [From] value none
    of whose addresses holds an at sign is rewritten without the oracle
    being consulted: when the replacement addresses can be built and the
    session carries out the two edits, an [X-Original-From] header with
    the original value is inserted at the end and the [From] header is
    updated to the replacement. *)
Theorem forward_without_domains (from_header : option Header)
    (from_value : list Z) (w : world S)
    (replacements : list (list Z)) (original replaced : list Z) (s1 s2 : S) :
  Forall (fun email => 64 ∉ email.2) (getaddresses rt [from_value]) ->
  mapM (replacement rt) (getaddresses rt [from_value]) = Ok replacements ->
  Utf8.encode from_value = Ok original ->
  Utf8.encode (py " " ++ Py.join (py ", ") replacements) = Ok replaced ->
  session_insert rt {| hname := py "X-Original-From"; hvalue := original |}
    END (session w) = (None, s1) ->
  session_update rt from_header replaced s1 = (None, s2) ->
  check_all_dmarc_rejections rt [] w = (Ok true, w) /\
  rewrite_forward rt from_header from_value w
  = (Ok true,
     {| session := s2;
        calls := calls w
                 ++ [ CInsert {| hname := py "X-Original-From";
                                 hvalue := original |} END;
                      CUpdate from_header replaced ];
        lookups := lookups w |}).
Proof.
  intros Hat Hrep Horig Hnew Hins Hupd. split; [done|].
  unfold rewrite_forward, headers_insert, headers_update, edit. run_M.
  rewrite (extract_domain_no_at _ Hat), filter_none_nones.
  cbn [check_all_dmarc_rejections negb]. run_M.
  rewrite Hrep, Horig. cbn [negb]. rewrite Hins, Hnew.
  cbn [session calls lookups]. rewrite Hupd. by rewrite <- app_assoc.
Qed.

(** What [handle] does once the headers are captured and the required
    headers are found, with no [X-Original-From] header there and
    the forward mode on. *)
Lemma handle_forward (w : world S) (l : locals)
    (required_config : gmap (list Z) pyvalue) (forward : pyvalue) :
  capture_all locals_init (session_headers rt (session w)) = Ok l ->
  required_config_of rt = Ok required_config ->
  check_required_headers required_config (mail_headers l) = Ok true ->
  original_from_header l = None ->
  get_config_value (app_config rt) (py "rewrite.forward") (VBool true)
  = Ok forward ->
  truthy forward = true ->
  handle rt w
  = match from_value l with
    | None => (Raise UnboundLocalError, w)
    | Some v =>
      match rewrite_forward rt (from_header l) v w with
      | (Ok _, w') => (Ok Accept, w')
      | (Raise e, w') => (Raise e, w')
      end
    end.
Proof.
  intros Hl Hrc Hreq Ho Hfwd Ht. unfold handle. run_M.
  rewrite Hl, Hrc, Hreq, Ho, Hfwd. unfold result_bind.
  rewrite Ht. cbn [negb].
  destruct (from_value l) as [v|]; [|done].
  cbn [read_local]. by destruct (rewrite_forward _ _ _ _) as [[]].
Qed.

Lemma extract_domain_ok (email_addr : list Z) :
  exists d, extract_domain email_addr = Ok d.
Proof.
  unfold extract_domain. change (py "@") with [64]. rewrite contains_char.
  case_bool_decide as Hat; [|by eexists].
  apply list_elem_of_split_l in Hat as (a & r & -> & Ha).
  rewrite split_app_sep by done.
  destruct (UrllibFacts.split_nil_or_cons 64 (Some 1%nat) r) as (h & t & ->).
  by exists (Some h).
Qed.

Lemma extract_domains_ok (addresses : list (list Z * list Z)) :
  exists ds, mapM (fun email => extract_domain (snd email)) addresses = Ok ds.
Proof.
  induction addresses as [|email addresses (ds & E)]; [by eexists|].
  destruct (extract_domain_ok (snd email)) as (d & Ed).
  cbn [mapM]. rewrite Ed, E. by eexists.
Qed.

Lemma lift_bind {A B} (a : A) (f : A -> M S B) (w : world S) :
  (lift (Ok a) ≫= f) w = f a w.
Proof. reflexivity. Qed.

Lemma try_except_catches_all {A} (body : M S A) (otherwise : A) (w : world S) :
  exists a w',
    try_except body (fun _ => true) (fun _ => mret otherwise) w = (Ok a, w').
Proof.
  unfold try_except. destruct (body w) as [[a|e] w']; by eexists _, _.
Qed.

(** Whatever happens inside its [try], [rewrite_forward] returns: an
    exception raised there is turned into the result [False]. *)
Lemma rewrite_forward_returns (from_header : option Header)
    (from_value : list Z) (w : world S) :
  exists b w', rewrite_forward rt from_header from_value w = (Ok b, w').
Proof.
  unfold rewrite_forward.
  destruct (extract_domains_ok (getaddresses rt [from_value])) as (ds & ->).
  rewrite lift_bind. apply try_except_catches_all.
Qed.

(** With a [From] header captured, the forward branch ends in [Accept]. *)
Lemma forward_with_from_accepts (w : world S) (l : locals)
    (required_config : gmap (list Z) pyvalue) (forward : pyvalue)
    (v : list Z) :
  capture_all locals_init (session_headers rt (session w)) = Ok l ->
  required_config_of rt = Ok required_config ->
  check_required_headers required_config (mail_headers l) = Ok true ->
  original_from_header l = None ->
  get_config_value (app_config rt) (py "rewrite.forward") (VBool true)
  = Ok forward ->
  truthy forward = true ->
  from_value l = Some v ->
  fst (handle rt w) = Ok Accept.
Proof.
  intros Hl Hrc Hreq Ho Hfwd Ht Hv.
  rewrite (handle_forward w l required_config forward) by done.
  rewrite Hv.
  by destruct (rewrite_forward_returns (from_header l) v w) as (b & w' & ->).
Qed.

(** No header named [From] leaves [from_value] without a binding. *)
Lemma capture_all_no_from (headers : list Header) (l0 l : locals) :
  Forall (fun h => Py.lower (hname h) <> py "from") headers ->
  capture_all l0 headers = Ok l ->
  from_value l = from_value l0.
Proof.
  intros H. revert l0. induction H as [|h headers Hh _ IH]; intros l0.
  - by intros [= ->].
  - cbn [capture_all]. unfold capture. unfold mbind at 1 2, result_bind.
    destruct (Utf8.decode (hvalue h)) as [v|]; [|done].
    cbn [lower_name]. rewrite bool_decide_false by done.
    case_bool_decide; intros E; apply IH in E; by rewrite E.
Qed.

(** A message with no [From] header that reaches the forward branch
    makes [handle] raise, before [rewrite_forward] is entered. *)
Lemma forward_without_from_raises (w : world S) (l : locals)
    (required_config : gmap (list Z) pyvalue) (forward : pyvalue) :
  Forall (fun h => Py.lower (hname h) <> py "from")
         (session_headers rt (session w)) ->
  capture_all locals_init (session_headers rt (session w)) = Ok l ->
  required_config_of rt = Ok required_config ->
  check_required_headers required_config (mail_headers l) = Ok true ->
  original_from_header l = None ->
  get_config_value (app_config rt) (py "rewrite.forward") (VBool true)
  = Ok forward ->
  truthy forward = true ->
  handle rt w = (Raise UnboundLocalError, w).
Proof.
  intros Hno Hl Hrc Hreq Ho Hfwd Ht.
  rewrite (handle_forward w l required_config forward) by done.
  by rewrite (capture_all_no_from _ _ _ Hno Hl).
Qed.

End Forward.

(** The forward rewrite of the specification. *)
Example handle_forward_end_to_end :
  let from := {| hname := py "From";
                 hvalue := py "Some One <someone@example.com>" |} in
  handle (test_runtime (dict_config {[ py "domain" := VStr (py "dmarc.example.com") ]})
            (fun _ => Ok reject_dmarc_record)
            [(py "Some One", py "someone@example.com")])
         (start [from])
  = (Ok Accept,
     {| session :=
          [ {| hname := py "From";
               hvalue := py " Some One <someone=40example.com@dmarc.example.com>" |};
            {| hname := py "X-Original-From";
               hvalue := py "Some One <someone@example.com>" |} ];
        calls :=
          [ CInsert {| hname := py "X-Original-From";
                       hvalue := py "Some One <someone@example.com>" |} END;
            CUpdate (Some from)
              (py " Some One <someone=40example.com@dmarc.example.com>") ];
        lookups := [py "example.com"] |}).
Proof. by vm_compute. Qed.

(** A permissive policy, and a failing oracle, leave the message alone. *)
Example handle_forward_allow :
  let from := {| hname := py "From";
                 hvalue := py "Some One <someone@example.com>" |} in
  handle (test_runtime (dict_config {[ py "domain" := VStr (py "dmarc.example.com") ]})
            (fun _ => Ok allow_dmarc_record)
            [(py "Some One", py "someone@example.com")])
         (start [from])
  = (Ok Accept, looked_up [py "example.com"] (start [from])) /\
  handle (test_runtime (dict_config {[ py "domain" := VStr (py "dmarc.example.com") ]})
            (fun _ => Raise DMARCError)
            [(py "Some One", py "someone@example.com")])
         (start [from])
  = (Ok Accept, looked_up [py "example.com"] (start [from])).
Proof. split; by vm_compute. Qed.

Lemma forward_without_domains_witness :
  let from := {| hname := py "From"; hvalue := py "someone" |} in
  let rt := test_runtime
              (dict_config {[ py "domain" := VStr (py "dmarc.example.com") ]})
              (fun _ => Ok allow_dmarc_record) [([], py "someone")] in
  check_all_dmarc_rejections rt [] (start [from]) = (Ok true, start [from]) /\
  rewrite_forward rt (Some from) (py "someone") (start [from])
  = (Ok true,
     {| session :=
          [ {| hname := py "From";
               hvalue := py " someone@dmarc.example.com" |};
            {| hname := py "X-Original-From"; hvalue := py "someone" |} ];
        calls :=
          [ CInsert {| hname := py "X-Original-From";
                       hvalue := py "someone" |} END;
            CUpdate (Some from) (py " someone@dmarc.example.com") ];
        lookups := [] |}).
Proof.
  cbv zeta.
  eapply (forward_without_domains
           (test_runtime
              (dict_config {[ py "domain" := VStr (py "dmarc.example.com") ]})
              (fun _ => Ok allow_dmarc_record) [([], py "someone")])
           (Some {| hname := py "From"; hvalue := py "someone" |})
           (py "someone")
           (start [ {| hname := py "From"; hvalue := py "someone" |} ])
           [py "someone@dmarc.example.com"]).
  - repeat constructor. by apply not_elem_by_test.
  - by vm_compute.
  - by vm_compute.
  - by vm_compute.
  - by vm_compute.
  - by vm_compute.
Defined.

(** C2: a message with neither a [From] nor an [X-Original-From] header,
    under the default configuration, takes the forward branch, and
    [handle] raises [UnboundLocalError] where it reads [from_value]: the
    exception reaches the milter runtime, and no [Accept] is returned. *)
Theorem handle_without_from_raises :
  let subject := {| hname := py "Subject"; hvalue := py "hello" |} in
  handle (test_runtime (dict_config ∅) (fun _ => Ok reject_dmarc_record) [])
         (start [subject])
  = (Raise UnboundLocalError, start [subject]).
Proof. by vm_compute. Qed.

(* ================================================================== *)
(** * Part III - further properties of the code                       *)
(* ================================================================== *)

(** ** Strict decoding and encoding *)

Module Utf8Strict.
Import Utf8 Utf8Facts.

Lemma encode_char_ascii b : 0 <= b < 128 -> encode_char b = Some [b].
Proof.
  intros H. unfold encode_char.
  destruct (Z.ltb_spec b 0); [lia|]. by destruct (Z.ltb_spec b 128); [|lia].
Qed.

Lemma encode_char_two b1 b2 :
  194 <= b1 < 224 -> 128 <= b2 <= 191 ->
  encode_char ((b1 - 192) * 64 + (b2 - 128)) = Some [b1; b2].
Proof.
  intros H1 H2. set (c := (b1 - 192) * 64 + (b2 - 128)).
  assert (c / 64 = b1 - 192) as Hd
    by (symmetry; apply (Z.div_unique c 64 _ (b2 - 128)); lia).
  assert (c mod 64 = b2 - 128) as Hm
    by (symmetry; apply (Z.mod_unique c 64 (b1 - 192)); lia).
  unfold encode_char. rewrite Hd, Hm.
  destruct (Z.ltb_spec c 0); [lia|]. destruct (Z.ltb_spec c 128); [lia|].
  destruct (Z.ltb_spec c 2048); [|lia]. do 2 f_equal; [lia|f_equal; lia].
Qed.

Lemma encode_char_three b1 b2 b3 :
  224 <= b1 < 240 -> second_ok3 b1 b2 = true -> 128 <= b3 <= 191 ->
  encode_char ((b1 - 224) * 4096 + (b2 - 128) * 64 + (b3 - 128))
  = Some [b1; b2; b3].
Proof.
  intros H1 H2 H3. unfold second_ok3, is_cont in H2. reflect_tests H2.
  set (c := (b1 - 224) * 4096 + (b2 - 128) * 64 + (b3 - 128)).
  assert (c / 4096 = b1 - 224) as Hd1
    by (symmetry; apply (Z.div_unique c 4096 _ ((b2 - 128) * 64 + (b3 - 128))); lia).
  assert (c / 64 = (b1 - 224) * 64 + (b2 - 128)) as Hd2
    by (symmetry; apply (Z.div_unique c 64 _ (b3 - 128)); lia).
  assert (((b1 - 224) * 64 + (b2 - 128)) mod 64 = b2 - 128) as Hm2
    by (symmetry; apply (Z.mod_unique _ 64 (b1 - 224)); lia).
  assert (c mod 64 = b3 - 128) as Hm3
    by (symmetry; apply (Z.mod_unique c 64 ((b1 - 224) * 64 + (b2 - 128))); lia).
  unfold encode_char. rewrite Hd1, Hd2, Hm2, Hm3.
  destruct (Z.ltb_spec c 0); [lia|]. destruct (Z.ltb_spec c 128); [lia|].
  destruct (Z.ltb_spec c 2048); [lia|]. destruct (Z.ltb_spec c 65536); [|lia].
  destruct (Z.leb_spec 55296 c); destruct (Z.leb_spec c 57343); cbn [andb];
    try lia; do 2 f_equal; try lia; f_equal; try lia; f_equal; lia.
Qed.

Lemma encode_char_four b1 b2 b3 b4 :
  240 <= b1 < 245 -> second_ok4 b1 b2 = true -> 128 <= b3 <= 191 ->
  128 <= b4 <= 191 ->
  encode_char ((b1 - 240) * 262144 + (b2 - 128) * 4096 + (b3 - 128) * 64
               + (b4 - 128))
  = Some [b1; b2; b3; b4].
Proof.
  intros H1 H2 H3 H4. unfold second_ok4, is_cont in H2. reflect_tests H2.
  set (c := (b1 - 240) * 262144 + (b2 - 128) * 4096 + (b3 - 128) * 64
            + (b4 - 128)).
  assert (c / 262144 = b1 - 240) as Hd1
    by (symmetry;
        apply (Z.div_unique c 262144 _
                 ((b2 - 128) * 4096 + (b3 - 128) * 64 + (b4 - 128))); lia).
  assert (c / 4096 = (b1 - 240) * 64 + (b2 - 128)) as Hd2
    by (symmetry;
        apply (Z.div_unique c 4096 _ ((b3 - 128) * 64 + (b4 - 128))); lia).
  assert (c / 64 = (b1 - 240) * 4096 + (b2 - 128) * 64 + (b3 - 128)) as Hd3
    by (symmetry; apply (Z.div_unique c 64 _ (b4 - 128)); lia).
  assert (((b1 - 240) * 64 + (b2 - 128)) mod 64 = b2 - 128) as Hm2
    by (symmetry; apply (Z.mod_unique _ 64 (b1 - 240)); lia).
  assert (((b1 - 240) * 4096 + (b2 - 128) * 64 + (b3 - 128)) mod 64 = b3 - 128)
    as Hm3
    by (symmetry;
        apply (Z.mod_unique _ 64 ((b1 - 240) * 64 + (b2 - 128))); lia).
  assert (c mod 64 = b4 - 128) as Hm4
    by (symmetry;
        apply (Z.mod_unique c 64
                 ((b1 - 240) * 4096 + (b2 - 128) * 64 + (b3 - 128))); lia).
  unfold encode_char. rewrite Hd1, Hd2, Hd3, Hm2, Hm3, Hm4.
  destruct (Z.ltb_spec c 0); [lia|]. destruct (Z.ltb_spec c 128); [lia|].
  destruct (Z.ltb_spec c 2048); [lia|]. destruct (Z.ltb_spec c 65536); [lia|].
  destruct (Z.ltb_spec c 1114112); [|lia].
  repeat (f_equal; try lia).
Qed.

Lemma mapM_id_cons (o : option Z) (l : list (option Z)) (s : list Z) :
  mapM id (o :: l) = Some s ->
  exists c s', o = Some c /\ s = c :: s' /\ mapM id l = Some s'.
Proof.
  cbn [mapM]. destruct o as [c|]; [|done]. cbn.
  destruct (mapM id l) as [s'|]; [|done]. cbn. intros [= <-]. by eexists _, _.
Qed.

Lemma is_cont_range b : is_cont b = true -> 128 <= b <= 191.
Proof. unfold is_cont. intros H. reflect_tests H. lia. Qed.

(** Strict decoding is undone by encoding. *)
Lemma scan_encode_fuel (n : nat) (bs : list Z) (s : list Z) :
  (length bs <= n)%nat ->
  mapM id (scan bs) = Some s -> encode s = Ok bs.
Proof.
  revert bs s. induction n as [|n IH]; intros bs s Hn.
  { destruct bs; [|cbn in Hn; lia]. by intros [= <-]. }
  destruct bs as [|b1 r1]; [by intros [= <-]|].
  cbn [length] in Hn. rewrite scan_unfold.
  destruct ((0 <=? b1) && (b1 <? 128)) eqn:T1.
  { intros (c & s' & [= <-] & -> & Hs)%mapM_id_cons. reflect_tests T1.
    cbn [encode]. rewrite encode_char_ascii by lia.
    rewrite (IH r1 s') by (done || lia). done. }
  destruct ((194 <=? b1) && (b1 <? 224)) eqn:T2.
  { reflect_tests T2. destruct r1 as [|b2 r2]; [done|].
    destruct (is_cont b2) eqn:C2;
      intros (c & s' & [= <-] & -> & Hs)%mapM_id_cons.
    apply is_cont_range in C2. cbn [length] in Hn.
    cbn [encode]. rewrite encode_char_two by lia.
    rewrite (IH r2 s') by (done || lia). done. }
  destruct ((224 <=? b1) && (b1 <? 240)) eqn:T3.
  { reflect_tests T3. destruct r1 as [|b2 r2]; [done|].
    destruct (second_ok3 b1 b2) eqn:C2;
      [|by intros (c & s' & [=] & _)%mapM_id_cons].
    destruct r2 as [|b3 r3]; [done|].
    destruct (is_cont b3) eqn:C3;
      intros (c & s' & [= <-] & -> & Hs)%mapM_id_cons.
    apply is_cont_range in C3. cbn [length] in Hn.
    cbn [encode]. rewrite encode_char_three by (done || lia).
    rewrite (IH r3 s') by (done || lia). done. }
  destruct ((240 <=? b1) && (b1 <? 245)) eqn:T4.
  { reflect_tests T4. destruct r1 as [|b2 r2]; [done|].
    destruct (second_ok4 b1 b2) eqn:C2;
      [|by intros (c & s' & [=] & _)%mapM_id_cons].
    destruct r2 as [|b3 r3]; [done|].
    destruct (is_cont b3) eqn:C3;
      [|by intros (c & s' & [=] & _)%mapM_id_cons].
    destruct r3 as [|b4 r4]; [done|].
    destruct (is_cont b4) eqn:C4;
      intros (c & s' & [= <-] & -> & Hs)%mapM_id_cons.
    apply is_cont_range in C3. apply is_cont_range in C4. cbn [length] in Hn.
    cbn [encode]. rewrite encode_char_four by (done || lia).
    rewrite (IH r4 s') by (done || lia). done. }
  by intros (c & s' & [=] & _)%mapM_id_cons.
Qed.

Lemma decode_encode (bs : list Z) (s : list Z) :
  decode bs = Ok s -> encode s = Ok bs.
Proof.
  unfold decode. destruct (mapM id (scan bs)) as [s'|] eqn:E; [|done].
  intros [= <-]. by apply (scan_encode_fuel (length bs)).
Qed.

Lemma encode_decode (s : list Z) (bs : list Z) :
  Forall scalar s -> encode s = Ok bs -> decode bs = Ok s.
Proof.
  intros Hs E. destruct (encode_scalars s Hs) as (bs' & E' & _ & Hscan).
  rewrite E in E'. injection E' as <-. unfold decode. rewrite Hscan.
  clear. assert (mapM id (map Some s) = Some s) as ->; [|done].
  induction s as [|c s IH]; [done|]. cbn [map mapM]. by rewrite IH.
Qed.

Lemma encode_char_some_scalar c bs : encode_char c = Some bs -> scalar c.
Proof.
  unfold encode_char, scalar. intros H.
  repeat match type of H with
  | context [?a <? ?b] => destruct (Z.ltb_spec a b)
  | context [?a <=? ?b] => destruct (Z.leb_spec a b)
  end; cbn [andb] in H; try discriminate; lia.
Qed.

Lemma encode_ok_scalar s bs : encode s = Ok bs -> Forall scalar s.
Proof.
  revert bs. induction s as [|c s IH]; intros bs; [constructor|].
  cbn [encode]. destruct (encode_char c) as [cs|] eqn:Ec; [|done].
  destruct (encode s) as [r|] eqn:Er; [|done]. intros _.
  constructor; [by eapply encode_char_some_scalar|by eapply IH].
Qed.

Lemma decode_nonempty b bs s : decode (b :: bs) = Ok s -> s <> [].
Proof.
  intros H%decode_encode ->. cbn in H. discriminate.
Qed.

End Utf8Strict.

(** ** The address codec, continued *)

Section CodecMore.
Import Utf8 Urllib PyFacts Utf8Facts UrllibFacts Utf8Strict.

Lemma encode_bytes s bs :
  encode s = Ok bs -> Forall (fun b => 0 <= b < 256) bs.
Proof.
  intros E. destruct (encode_scalars s (encode_ok_scalar _ _ E))
    as (bs' & E' & Hb & _). congruence.
Qed.

Lemma encode_raises s e : encode s = Raise e -> e = UnicodeEncodeError.
Proof.
  induction s as [|c s IH]; [done|]. cbn [encode].
  destruct (encode_char c); [|by intros [= <-]].
  destruct (encode s); [done|]. intros [= <-]. by apply IH.
Qed.

(** What [quote_email_address] returns, in terms of the octets of the
    address. *)
Lemma quote_email_address_ok x q e :
  quote_email_address x [q] = Ok e ->
  exists bs, encode x = Ok bs /\
    e = Py.replace (flat_map (quoter [47]) bs) [37] [q].
Proof.
  unfold quote_email_address, quote. change (py "%") with [37].
  change (py "/") with [47]. destruct x as [|c x].
  - intros [= <-]. by exists [].
  - destruct (encode (c :: x)) as [bs|] eqn:E; [|done].
    intros [= <-]. exists bs. by rewrite quote_from_bytes_flat.
Qed.

Lemma quote_then_unquote x q e :
  unescaped [47] q = false ->
  quote_email_address x [q] = Ok e ->
  unquote_email_address e [q] = x.
Proof.
  intros Hq (bs & E & ->)%quote_email_address_ok.
  pose proof (encode_bytes _ _ E) as Hb.
  unfold unquote_email_address. change (py "%") with [37].
  rewrite replace_replace.
  - rewrite <- quote_from_bytes_flat, unquote_quote_from_bytes by done.
    apply decode_replace_encode; [by eapply encode_ok_scalar|done].
  - eapply Forall_impl; [by apply quoted_chars|].
    intros y [->|U]; [by left|right]. congruence.
Qed.

Lemma quote_email_address_chars (x : list Z) (q : Z) (e : list Z) :
  quote_email_address x [q] = Ok e ->
  Forall (fun c => c = q \/ unescaped [47] c = true) e.
Proof.
  intros (bs & E & ->)%quote_email_address_ok.
  pose proof (quoted_chars bs (encode_bytes _ _ E)) as Hc.
  rewrite replace_char. induction Hc as [|y l Hy _ IH]; [constructor|].
  cbn [flat_map]. apply Forall_app. split; [|done].
  case_bool_decide; (apply Forall_cons_2; [|constructor]); [by left|].
  destruct Hy as [?|?]; [done|by right].
Qed.

Lemma quote_email_address_no_at (x : list Z) (q : Z) (e : list Z) :
  quote_email_address x [q] = Ok e -> q <> 64 -> 64 ∉ e.
Proof.
  intros Hall%quote_email_address_chars Hq Hin.
  eapply Forall_forall in Hall; [|done]. by destruct Hall as [?|?].
Qed.

(** X1. Whatever [quote_email_address] returns for a one-character quote
    symbol [q] is made of [q] and of the characters [quote] leaves
    unescaped (letters, digits and [_.-~/]) only; so unless [q] is the at
    sign, the result holds no at sign. *)
Theorem quote_email_address_alphabet (x : list Z) (q : Z) (e : list Z) :
  quote_email_address x [q] = Ok e ->
  Forall (fun c => c = q \/ unescaped (py "/") c = true) e /\
  (q <> 64 -> 64 ∉ e).
Proof.
  intros He. change (py "/") with [47]. split.
  - by apply (quote_email_address_chars x).
  - by apply (quote_email_address_no_at x).
Qed.

Lemma quote_email_address_alphabet_witness :
  Forall (fun c => c = 61 \/ unescaped (py "/") c = true)
         (py "someone=40example.com") /\
  (61 <> 64 -> 64 ∉ py "someone=40example.com").
Proof.
  exact (quote_email_address_alphabet (py "someone@example.com") 61
           (py "someone=40example.com") eq_refl).
Defined.

(** X2. [quote_email_address] is injective for a quote symbol that
    [quote] does not leave unescaped: two addresses with the same
    encoding are the same address. *)
Theorem quote_email_address_injective (x y : list Z) (q : Z) (e : list Z) :
  unescaped (py "/") q = false ->
  quote_email_address x [q] = Ok e ->
  quote_email_address y [q] = Ok e ->
  x = y.
Proof.
  intros Hq Hx Hy. change (py "/") with [47] in Hq.
  rewrite <- (quote_then_unquote x q e Hq Hx).
  by rewrite <- (quote_then_unquote y q e Hq Hy).
Qed.

Lemma quote_email_address_injective_witness :
  py "someone@example.com" = py "someone@example.com".
Proof.
  exact (quote_email_address_injective (py "someone@example.com")
           (py "someone@example.com") 61 (py "someone=40example.com")
           eq_refl eq_refl eq_refl).
Defined.

(** X3. [quote_email_address] returns for an address of Unicode scalar
    values, whatever the quote symbol, and raises [UnicodeEncodeError]
    for any other: an address that holds a lone surrogate. *)
Theorem quote_email_address_raises (x q : list Z) :
  (Forall scalar x -> exists e, quote_email_address x q = Ok e) /\
  (~ Forall scalar x -> quote_email_address x q = Raise UnicodeEncodeError).
Proof.
  unfold quote_email_address, quote. split.
  - intros Hx. destruct x as [|c x]; [by eexists|].
    destruct (encode_scalars _ Hx) as (bs & -> & _). by eexists.
  - intros Hx. destruct x as [|c x]; [by destruct Hx|].
    destruct (encode (c :: x)) as [bs|e] eqn:E.
    + by apply encode_ok_scalar in E.
    + by apply encode_raises in E as ->.
Qed.

Lemma quote_email_address_raises_witness :
  (exists e, quote_email_address (py "a@b") (py "=") = Ok e) /\
  quote_email_address [97; 56832] (py "=") = Raise UnicodeEncodeError.
Proof.
  split.
  - apply (proj1 (quote_email_address_raises (py "a@b") (py "="))).
    change (py "a@b") with [97; 64; 98].
    repeat (apply Forall_cons_2; [unfold scalar; lia|]). constructor.
  - apply (proj2 (quote_email_address_raises [97; 56832] (py "="))).
    intros H. apply Forall_cons_1 in H as [_ H].
    apply Forall_cons_1 in H as [[_ H] _]. lia.
Defined.

Lemma extract_localpart_app (a r : list Z) :
  64 ∉ a -> extract_localpart (a ++ 64 :: r) = Ok a.
Proof.
  intros Ha. unfold extract_localpart. rewrite contains_at.
  rewrite bool_decide_true by set_solver.
  by rewrite split_app_sep.
Qed.

(** X4. [unrewrite_email_address] undoes the cloak: for an address [x]
    encoded with a quote symbol [q] that [quote] escapes and that is not
    the at sign, the address made of the encoding, an at sign and any
    domain is turned back into [x], which is handed to [Address] with the
    display name. *)
Theorem unrewrite_undoes_quote
    (address_of_spec : list Z -> list Z -> result (list Z))
    (display_name x domain : list Z) (q : Z) (e : list Z) :
  unescaped (py "/") q = false -> q <> 64 ->
  quote_email_address x [q] = Ok e ->
  unrewrite_email_address address_of_spec (display_name, e ++ 64 :: domain) [q]
  = address_of_spec display_name x.
Proof.
  intros Hq Hat He. unfold unrewrite_email_address. cbn [fst snd].
  rewrite extract_localpart_app by by apply (quote_email_address_no_at x q).
  cbn. by rewrite (quote_then_unquote x q e).
Qed.

Lemma unrewrite_undoes_quote_witness :
  unrewrite_email_address angle_address
    (py "Some One", py "someone=40example.com" ++ 64 :: py "dmarc.example.com")
    (py "=")
  = angle_address (py "Some One") (py "someone@example.com").
Proof.
  exact (unrewrite_undoes_quote angle_address (py "Some One")
           (py "someone@example.com") (py "dmarc.example.com") 61
           (py "someone=40example.com") eq_refl ltac:(lia) eq_refl).
Defined.

(** The case of [tests/test_milter.py]. *)
Example unrewrite_test :
  unrewrite_email_address angle_address
    (py "Some One", py "someone=40example.com@dmarc.example.com") (py "=")
  = Ok (py "Some One <someone@example.com>").
Proof. reflexivity. Qed.

End CodecMore.

(** ** Splitting an address, continued *)

Section SplitMore.
Import PyFacts.

Lemma split_one (r : list Z) :
  exists b rest,
    head (Py.split 64 (Some 1%nat) r) = Some b /\
    (64 ∉ b) /\ r = b ++ rest /\ (rest = [] \/ exists r', rest = 64 :: r').
Proof.
  destruct (decide (64 ∈ r)) as [Hin|Hno].
  - apply list_elem_of_split_l in Hin as (b & c & -> & Hb).
    rewrite split_app_sep by done.
    exists b, (64 :: c). repeat split; [done|]. right. by exists c.
  - rewrite split_no_sep by done. exists r, [].
    rewrite app_nil_r. repeat split; [done|]. by left.
Qed.

(** X5. Neither [extract_localpart] nor [extract_domain] raises, and
    the two results cut the address where its at signs are. The local
    part holds no at sign, and without a domain ([False]) it is the whole
    address. A domain is returned exactly when the address holds an at
    sign: the address is then the local part, an at sign, the domain,
    which holds no at sign either, and a rest that is empty or begins
    with the second at sign. *)
Theorem extract_results_without_at (email_addr : list Z) :
  exists l d rest,
    extract_localpart email_addr = Ok l /\
    extract_domain email_addr = Ok d /\
    (64 ∉ l) /\
    email_addr = l ++ match d with
                      | None => []
                      | Some d' => 64 :: d' ++ rest
                      end /\
    (d = None <-> 64 ∉ email_addr) /\
    (forall d', d = Some d' ->
       (64 ∉ d') /\ (rest = [] \/ exists r, rest = 64 :: r)).
Proof.
  unfold extract_localpart, extract_domain. rewrite !contains_at.
  destruct (decide (64 ∈ email_addr)) as [Hin|Hno].
  - rewrite bool_decide_true by done.
    pose proof Hin as (a & r & -> & Ha)%list_elem_of_split_l.
    rewrite split_app_sep by done.
    destruct (split_one r) as (b & rest & Hhd & Hb & -> & Hrest).
    destruct (Py.split 64 (Some 1%nat) (b ++ rest)) as [|b' t]; [done|].
    injection Hhd as ->. exists a, (Some b), rest.
    split; [done|]. split; [done|]. split; [done|]. split; [done|].
    split; [done|]. by intros d' [= <-].
  - rewrite bool_decide_false by done. exists email_addr, None, [].
    rewrite app_nil_r. repeat split; done.
Qed.

End SplitMore.

(** ** The configuration resolver, continued *)

(** X6. An exception of the lookup that is neither [ConfigError] nor
    [KeyError] is not taken for an absence: [get_config_value] lets it
    through, from the direct key (the key under the prefix is then not
    tried) and from the key under the prefix alike. *)
Theorem get_config_value_propagates (cfg : Config) (key : list Z)
    (default : pyvalue) :
  (forall e, getitem cfg key = Raise e -> is_absence e = false ->
     get_config_value cfg key default = Raise e) /\
  (forall e e', getitem cfg key = Raise e -> is_absence e = true ->
     getitem cfg (py "dmarc." ++ key) = Raise e' -> is_absence e' = false ->
     get_config_value cfg key default = Raise e').
Proof.
  unfold get_config_value. split.
  - by intros e -> ->.
  - by intros e e' -> -> -> ->.
Qed.

Lemma get_config_value_propagates_witness :
  get_config_value {| getitem := fun _ => Raise TypeError |} (py "domain") VNone
  = Raise TypeError /\
  get_config_value
    {| getitem := fun k => if bool_decide (k = py "domain")
                           then Raise ConfigError else Raise ValueError |}
    (py "domain") VNone
  = Raise ValueError.
Proof.
  split.
  - apply (proj1 (get_config_value_propagates _ (py "domain") VNone));
      reflexivity.
  - apply (proj2 (get_config_value_propagates _ (py "domain") VNone)
             ConfigError); reflexivity.
Defined.

(** X7. The port [main] listens on: the value of [--port] when it is
    given and not empty; otherwise the configured [milter_port];
    otherwise the configured [dmarc.milter_port]; otherwise 1999. *)
Theorem listen_port_precedence (port : pyvalue) (cfg : Config) :
  (truthy port = true -> listen_port port cfg = Ok port) /\
  (forall v, truthy port = false -> getitem cfg (py "milter_port") = Ok v ->
     listen_port port cfg = Ok v) /\
  (forall e v, truthy port = false ->
     getitem cfg (py "milter_port") = Raise e -> is_absence e = true ->
     getitem cfg (py "dmarc.milter_port") = Ok v ->
     listen_port port cfg = Ok v) /\
  (forall e e', truthy port = false ->
     getitem cfg (py "milter_port") = Raise e -> is_absence e = true ->
     getitem cfg (py "dmarc.milter_port") = Raise e' -> is_absence e' = true ->
     listen_port port cfg = Ok (VInt 1999)).
Proof.
  unfold listen_port, get_config_value.
  change (py "dmarc." ++ py "milter_port") with (py "dmarc.milter_port").
  repeat split.
  - by intros ->.
  - by intros v -> ->.
  - by intros e v -> -> -> ->.
  - by intros e e' -> -> -> -> ->.
Qed.

Lemma listen_port_precedence_witness :
  listen_port (VStr (py "2000"))
    (dict_config {[ py "milter_port" := VInt 2001 ]}) = Ok (VStr (py "2000")) /\
  listen_port (VStr [])
    (dict_config {[ py "milter_port" := VInt 2001 ]}) = Ok (VInt 2001) /\
  listen_port VNone
    (dict_config {[ py "dmarc.milter_port" := VInt 2002 ]}) = Ok (VInt 2002) /\
  listen_port VNone (dict_config ∅) = Ok (VInt 1999).
Proof.
  split; [|split; [|split]].
  - apply (proj1 (listen_port_precedence _ _)). reflexivity.
  - apply (proj1 (proj2 (listen_port_precedence _ _))); by vm_compute.
  - apply (proj1 (proj2 (proj2 (listen_port_precedence _ _))) KeyError);
      by vm_compute.
  - apply (proj2 (proj2 (proj2 (listen_port_precedence _ _)))
             KeyError KeyError); by vm_compute.
Defined.

(** ** The required headers, continued *)

Lemma required_loop_not_a_mapping (hdr : pyvalue) (h : header_entry)
    (headers : list header_entry) :
  (forall m, hdr <> VDict m) ->
  required_loop hdr (h :: headers) = Raise AttributeError.
Proof. intros Hm. destruct hdr; try done. by destruct (Hm d). Qed.

Lemma check_required_headers_cases
    (required_config : gmap (list Z) pyvalue) (headers : list header_entry) :
  check_required_headers required_config headers = Ok true /\
    required_config !! py "header" = None \/
  (exists m b, required_config !! py "header" = Some (VDict m) /\
     check_required_headers required_config headers = Ok b /\
     (b = true <-> exists h, h ∈ headers /\ satisfies m h)) \/
  (exists hdr, required_config !! py "header" = Some hdr /\
     (forall m, hdr <> VDict m) /\
     check_required_headers required_config headers
     = match headers with [] => Ok false | _ :: _ => Raise AttributeError end).
Proof.
  unfold check_required_headers.
  destruct (required_config !! py "header") as [hdr|]; [|by left].
  right.
  assert ((exists m, hdr = VDict m) \/ (forall m, hdr <> VDict m)) as [[m ->]|Hm]
    by (destruct hdr; eauto).
  - left. destruct (required_loop_spec m headers) as (b & E & Hb).
    by exists m, b.
  - right. exists hdr. split; [done|]. split; [done|].
    destruct headers; [done|]. by apply required_loop_not_a_mapping.
Qed.

Lemma bool_eq_iff (b b' : bool) (P P' : Prop) :
  (b = true <-> P) -> (b' = true <-> P') -> (P <-> P') -> b = b'.
Proof. destruct b, b'; intuition congruence. Qed.

(** X8. The answer of [check_required_headers] does not depend on the
    order of the captured headers, nor on how often a header occurs. *)
Theorem check_required_headers_order
    (required_config : gmap (list Z) pyvalue)
    (headers headers' : list header_entry) :
  (forall h, h ∈ headers <-> h ∈ headers') ->
  check_required_headers required_config headers
  = check_required_headers required_config headers'.
Proof.
  intros Hsame.
  destruct (check_required_headers_cases required_config headers)
    as [[E H]|[(m & b & H & E & Hb)|(hdr & H & Hm & E)]];
  destruct (check_required_headers_cases required_config headers')
    as [[E' H']|[(m' & b' & H' & E' & Hb')|(hdr' & H' & Hm' & E')]];
  rewrite H in H'; try discriminate.
  - congruence.
  - injection H' as <-. rewrite E, E'. f_equal.
    apply (bool_eq_iff _ _ _ _ Hb Hb').
    split; intros (h & Hin & Hs); exists h; (split; [by apply Hsame|done]).
  - injection H' as <-. by destruct (Hm' m).
  - injection H' as ->. by destruct (Hm m').
  - rewrite E, E'. destruct headers as [|h hs], headers' as [|h' hs']; try done.
    + exfalso. apply (elem_of_nil h'). apply Hsame. by left.
    + exfalso. apply (elem_of_nil h). apply Hsame. by left.
Qed.

Lemma check_required_headers_order_witness :
  check_required_headers (test_requirements (VBool true))
    (test_headers ++ [entry_of {| hname := py "From"; hvalue := [] |} (py "a@b")])
  = check_required_headers (test_requirements (VBool true))
      ([entry_of {| hname := py "From"; hvalue := [] |} (py "a@b")]
         ++ test_headers ++ test_headers).
Proof.
  apply check_required_headers_order. intros h.
  rewrite !elem_of_app. tauto.
Defined.

(** X9. More headers never close what was open: when
    [check_required_headers] returns true for some captured headers, it
    returns true for any list of headers that holds them all. *)
Theorem check_required_headers_monotone
    (required_config : gmap (list Z) pyvalue)
    (headers headers' : list header_entry) :
  headers ⊆ headers' ->
  check_required_headers required_config headers = Ok true ->
  check_required_headers required_config headers' = Ok true.
Proof.
  intros Hsub Htrue.
  destruct (check_required_headers_cases required_config headers)
    as [[E H]|[(m & b & H & E & Hb)|(hdr & H & Hm & E)]].
  - unfold check_required_headers. by rewrite H.
  - destruct (check_required_headers_cases required_config headers')
      as [[E' H']|[(m' & b' & H' & E' & Hb')|(hdr' & H' & Hm' & E')]];
      rewrite H in H'; try discriminate.
    + injection H' as <-. rewrite E'. f_equal. apply Hb'.
      rewrite E in Htrue. injection Htrue as ->.
      destruct (proj1 Hb eq_refl) as (h & Hin & Hs). exists h. auto.
    + injection H' as <-. by destruct (Hm' m).
  - rewrite E in Htrue. by destruct headers.
Qed.

Lemma check_required_headers_monotone_witness :
  check_required_headers (test_requirements (VStr (py "Some Value")))
    (entry_of {| hname := py "From"; hvalue := [] |} (py "a@b") :: test_headers)
  = Ok true.
Proof.
  apply (check_required_headers_monotone _ test_headers).
  - intros h Hh. by right.
  - by vm_compute.
Defined.

(** X10. A ["header"] entry that is no mapping makes
    [check_required_headers] raise [AttributeError] as soon as there is a
    header to look at; with no header at all it returns false. *)
Theorem check_required_headers_not_a_mapping
    (required_config : gmap (list Z) pyvalue) (hdr : pyvalue)
    (headers : list header_entry) :
  required_config !! py "header" = Some hdr ->
  (forall m, hdr <> VDict m) ->
  check_required_headers required_config headers
  = match headers with
    | [] => Ok false
    | _ :: _ => Raise AttributeError
    end.
Proof.
  intros H Hm. unfold check_required_headers. rewrite H.
  destruct headers; [done|]. by apply required_loop_not_a_mapping.
Qed.

Lemma check_required_headers_not_a_mapping_witness :
  check_required_headers {[ py "header" := VStr (py "X-Some-Header") ]}
    test_headers = Raise AttributeError.
Proof.
  apply (check_required_headers_not_a_mapping _ (VStr (py "X-Some-Header"))).
  - apply lookup_singleton_eq.
  - done.
Defined.

(** X11. A requirement that is neither [True], a string nor a list (so
    [False], [None], a number, a mapping) is met by no header; and when
    no captured header has a requirement that can be met, as with the
    empty mapping, [check_required_headers] returns false. *)
Theorem check_required_headers_unmet
    (required_config : gmap (list Z) pyvalue) (m : gmap (list Z) pyvalue)
    (headers : list header_entry) :
  required_config !! py "header" = Some (VDict m) ->
  (forall h, h ∈ headers ->
     match m !! name h with
     | Some (VBool true) | Some (VStr _) | Some (VList _) => False
     | _ => True
     end) ->
  check_required_headers required_config headers = Ok false.
Proof.
  intros H Hno. unfold check_required_headers. rewrite H.
  destruct (required_loop_spec m headers) as ([] & E & Hb); [|done].
  destruct (proj1 Hb eq_refl) as (h & Hin & Hs). specialize (Hno h Hin).
  unfold satisfies in Hs. by destruct (m !! name h) as [[|[]| | | |]|].
Qed.

Lemma check_required_headers_unmet_witness :
  check_required_headers {[ py "header" := VDict ∅ ]} test_headers = Ok false /\
  check_required_headers (test_requirements (VBool false)) test_headers
  = Ok false.
Proof.
  split.
  - apply (check_required_headers_unmet _ ∅).
    + apply lookup_singleton_eq.
    + intros h _. by rewrite lookup_empty.
  - apply (check_required_headers_unmet _
             {[ py "X-Some-Header" := VBool false ]}).
    + apply lookup_singleton_eq.
    + intros h Hh. apply list_elem_of_singleton in Hh as ->.
      by vm_compute.
Defined.

(** ** The DMARC evaluator, continued *)

Section EvaluatorMore.
Context {S : Type} (rt : Runtime S).

Lemma looked_up_nil (w : world S) : looked_up [] w = w.
Proof. destruct w. unfold looked_up. cbn. by rewrite app_nil_r. Qed.

Lemma check_all_world (domains : list (list Z)) (w : world S) :
  exists looked,
    looked `prefix_of` domains /\
    snd (check_all_dmarc_rejections rt domains w) = looked_up looked w /\
    (fst (check_all_dmarc_rejections rt domains w) = Ok true ->
     looked = domains).
Proof.
  revert w. induction domains as [|d ds IH]; intros w.
  - exists []. by rewrite looked_up_nil.
  - rewrite check_all_cons.
    destruct (fst (check_dmarc_rejection rt d w)) as [[]|e].
    + destruct (IH (looked_up [d] w)) as (looked & Hp & Hw & Ht).
      exists (d :: looked). split; [by apply prefix_cons|].
      split; [by rewrite Hw, looked_up_app|]. intros H. by rewrite Ht.
    + exists [d]. split; [apply prefix_cons, prefix_nil|]. by split.
    + exists [d]. split; [apply prefix_cons, prefix_nil|]. by split.
Qed.

(** X12. [check_all_dmarc_rejections] asks the session for nothing: it
    leaves the session and the edits as they were, and what it looks up
    is an initial part of the domains, in their order, each once; all of
    them when it returns true. *)
Theorem check_all_only_looks_up (domains : list (list Z)) (w : world S) :
  exists looked,
    looked `prefix_of` domains /\
    snd (check_all_dmarc_rejections rt domains w)
    = {| session := session w; calls := calls w;
         lookups := lookups w ++ looked |} /\
    (fst (check_all_dmarc_rejections rt domains w) = Ok true ->
     looked = domains).
Proof. apply check_all_world. Qed.

Lemma check_all_first_raise (pre post : list (list Z)) (d : list Z) (e : exn)
    (w : world S) :
  (forall x, x ∈ pre -> fst (check_dmarc_rejection rt x w) = Ok true) ->
  fst (check_dmarc_rejection rt d w) = Raise e ->
  check_all_dmarc_rejections rt (pre ++ d :: post) w
  = (Raise e, looked_up (pre ++ [d]) w).
Proof.
  revert w. induction pre as [|x pre IH]; intros w Hpre Hd.
  - cbn [app]. by rewrite check_all_cons, Hd.
  - cbn [app]. rewrite check_all_cons, (Hpre x) by by left.
    rewrite IH.
    + by rewrite looked_up_app.
    + intros y Hy.
      rewrite <- (check_dmarc_rejection_fst rt y w). apply Hpre. by right.
    + by rewrite <- (check_dmarc_rejection_fst rt d w).
Qed.

(** X13. An exception of the oracle that is no [DMARCError] is not
    caught by the evaluator: when the domains before [d] all evaluate to
    true and the lookup of [d] raises it, [check_all_dmarc_rejections]
    raises it, the domains after [d] not being looked up. *)
Theorem check_all_oracle_exception (pre post : list (list Z)) (d : list Z)
    (e : exn) (w : world S) :
  (forall x, x ∈ pre -> fst (check_dmarc_rejection rt x w) = Ok true) ->
  get_dmarc_record rt d = Raise e ->
  e <> DMARCError ->
  check_all_dmarc_rejections rt (pre ++ d :: post) w
  = (Raise e, looked_up (pre ++ [d]) w).
Proof.
  intros Hpre He Hne. apply check_all_first_raise; [done|].
  rewrite check_dmarc_rejection_run, He. cbn [fst].
  by rewrite bool_decide_false.
Qed.

End EvaluatorMore.

Lemma check_all_oracle_exception_witness :
  check_all_dmarc_rejections
    (test_runtime (dict_config ∅)
       (fun d => if bool_decide (d = py "example.com")
                 then Ok reject_dmarc_record else Raise RuntimeError) [])
    [py "example.com"; py "example.org"; py "example.net"] (start [])
  = (Raise RuntimeError,
     looked_up [py "example.com"; py "example.org"] (start [])).
Proof.
  apply (check_all_oracle_exception _ [py "example.com"] [py "example.net"]
           (py "example.org") RuntimeError).
  - intros x Hx. apply list_elem_of_singleton in Hx as ->. by vm_compute.
  - by vm_compute.
  - done.
Defined.

(** ** The forward rewrite, continued *)

Section ForwardMore.
Context {S : Type} (rt : Runtime S).

Lemma from_domains_ok (from_value : list Z) :
  exists ds, from_domains rt from_value = Ok ds.
Proof.
  unfold from_domains.
  destruct (extract_domains_ok (getaddresses rt [from_value])) as (x & ->).
  by eexists.
Qed.

Lemma edited_edited (s1 s2 : S) (c1 c2 : list call) (w : world S) :
  edited s2 c2 (edited s1 c1 w) = edited s2 (c1 ++ c2) w.
Proof. unfold edited. cbn. by rewrite app_assoc. Qed.

(** The course of [rewrite_forward], step by step. *)
Lemma rewrite_forward_run (from_header : option Header) (from_value : list Z)
    (ds : list (list Z)) (w : world S) :
  from_domains rt from_value = Ok ds ->
  rewrite_forward rt from_header from_value w
  = match check_all_dmarc_rejections rt ds w with
    | (Ok false, w1) => (Ok true, w1)
    | (Raise _, w1) => (Ok false, w1)
    | (Ok true, w1) =>
      match mapM (replacement rt) (getaddresses rt [from_value]),
            Utf8.encode from_value with
      | Ok replacements, Ok original =>
        let new_header :=
          {| hname := py "X-Original-From"; hvalue := original |} in
        match session_insert rt new_header END (session w1) with
        | (Some _, s1) => (Ok false, edited s1 [CInsert new_header END] w1)
        | (None, s1) =>
          match Utf8.encode (py " " ++ Py.join (py ", ") replacements) with
          | Raise _ => (Ok false, edited s1 [CInsert new_header END] w1)
          | Ok replaced =>
            match session_update rt from_header replaced s1 with
            | (Some _, s2) =>
              (Ok false,
               edited s2 [CInsert new_header END;
                          CUpdate from_header replaced] w1)
            | (None, s2) =>
              (Ok true,
               edited s2 [CInsert new_header END;
                          CUpdate from_header replaced] w1)
            end
          end
        end
      | _, _ => (Ok false, w1)
      end
    end.
Proof.
  unfold from_domains, rewrite_forward. intros Hds.
  destruct (mapM _ (getaddresses rt [from_value])) as [extracted|] eqn:E;
    [|done].
  cbn in Hds. injection Hds as <-.
  rewrite lift_bind. unfold try_except, headers_insert, headers_update, edit.
  run_M.
  destruct (check_all_dmarc_rejections rt (filter_none extracted) w)
    as [[[]|e] w1]; cbn [negb]; [|done|done].
  destruct (mapM (replacement rt) (getaddresses rt [from_value]))
    as [replacements|]; [|done].
  destruct (Utf8.encode from_value) as [original|]; [|done].
  cbn zeta.
  destruct (session_insert rt _ END (session w1)) as [[e1|] s1]; [done|].
  destruct (Utf8.encode (py " " ++ Py.join (py ", ") replacements))
    as [replaced|]; [|done].
  cbn [session calls lookups].
  destruct (session_update rt from_header replaced s1) as [[e2|] s2];
    unfold edited; cbn [session calls lookups]; by rewrite <- app_assoc.
Qed.

(** X14. [rewrite_forward] edits nothing unless every domain of the
    [From] value evaluates to true: when one evaluates to false it
    returns true, when the evaluation raises it returns false, and in
    both cases the session and the edits asked of it are as they were. *)
Theorem rewrite_forward_leaves_alone (from_header : option Header)
    (from_value : list Z) (ds : list (list Z)) (w : world S) :
  from_domains rt from_value = Ok ds ->
  fst (check_all_dmarc_rejections rt ds w) <> Ok true ->
  exists b w',
    rewrite_forward rt from_header from_value w = (Ok b, w') /\
    (b = true <-> fst (check_all_dmarc_rejections rt ds w) = Ok false) /\
    session w' = session w /\ calls w' = calls w.
Proof.
  intros Hds Hno. rewrite (rewrite_forward_run _ _ ds) by done.
  destruct (check_all_world rt ds w) as (looked & _ & Hw & _).
  destruct (check_all_dmarc_rejections rt ds w) as [[[]|e] w1];
    cbn [fst snd] in *; [done| |]; subst w1.
  - by exists true, (looked_up looked w).
  - by exists false, (looked_up looked w).
Qed.

(** X15. The two edits of [rewrite_forward] are not undone together:
    when the [X-Original-From] header has been inserted and the update of
    the [From] header is refused by the session, [rewrite_forward]
    returns false, and the inserted header stays. *)
Theorem rewrite_forward_partial (from_header : option Header)
    (from_value : list Z) (ds : list (list Z)) (w : world S)
    (replacements : list (list Z)) (original replaced : list Z)
    (s1 s2 : S) (e : exn) :
  from_domains rt from_value = Ok ds ->
  fst (check_all_dmarc_rejections rt ds w) = Ok true ->
  mapM (replacement rt) (getaddresses rt [from_value]) = Ok replacements ->
  Utf8.encode from_value = Ok original ->
  Utf8.encode (py " " ++ Py.join (py ", ") replacements) = Ok replaced ->
  session_insert rt {| hname := py "X-Original-From"; hvalue := original |}
    END (session w) = (None, s1) ->
  session_update rt from_header replaced s1 = (Some e, s2) ->
  rewrite_forward rt from_header from_value w
  = (Ok false,
     edited s2 [ CInsert {| hname := py "X-Original-From";
                            hvalue := original |} END;
                 CUpdate from_header replaced ]
       (looked_up ds w)).
Proof.
  intros Hds Hall Hrep Horig Hnew Hins Hupd.
  rewrite (rewrite_forward_run _ _ ds) by done.
  destruct (check_all_world rt ds w) as (looked & _ & Hw & Hl).
  destruct (check_all_dmarc_rejections rt ds w) as [r w1].
  cbn [fst snd] in *. subst r w1. rewrite (Hl eq_refl).
  rewrite Hrep, Horig. cbn zeta. cbn [looked_up session].
  by rewrite Hins, Hnew, Hupd.
Qed.

(** When every domain rejects and nothing fails, the two edits. *)
Lemma rewrite_forward_success (from_header : option Header)
    (from_value : list Z) (ds : list (list Z)) (w : world S)
    (replacements : list (list Z)) (original replaced : list Z) (s1 s2 : S) :
  from_domains rt from_value = Ok ds ->
  fst (check_all_dmarc_rejections rt ds w) = Ok true ->
  mapM (replacement rt) (getaddresses rt [from_value]) = Ok replacements ->
  Utf8.encode from_value = Ok original ->
  Utf8.encode (py " " ++ Py.join (py ", ") replacements) = Ok replaced ->
  session_insert rt {| hname := py "X-Original-From"; hvalue := original |}
    END (session w) = (None, s1) ->
  session_update rt from_header replaced s1 = (None, s2) ->
  rewrite_forward rt from_header from_value w
  = (Ok true,
     edited s2 [ CInsert {| hname := py "X-Original-From";
                            hvalue := original |} END;
                 CUpdate from_header replaced ]
       (looked_up ds w)).
Proof.
  intros Hds Hall Hrep Horig Hnew Hins Hupd.
  rewrite (rewrite_forward_run _ _ ds) by done.
  destruct (check_all_world rt ds w) as (looked & _ & Hw & Hl).
  destruct (check_all_dmarc_rejections rt ds w) as [r w1].
  cbn [fst snd] in *. subst r w1. rewrite (Hl eq_refl).
  rewrite Hrep, Horig. cbn zeta. cbn [looked_up session].
  by rewrite Hins, Hnew, Hupd.
Qed.

End ForwardMore.

Lemma rewrite_forward_leaves_alone_witness :
  exists b w',
    rewrite_forward
      (test_runtime (dict_config ∅) (fun _ => Ok allow_dmarc_record)
         [(py "Some One", py "someone@example.com")])
      None (py "Some One <someone@example.com>") (start [])
    = (Ok b, w') /\
    (b = true <->
     fst (check_all_dmarc_rejections
            (test_runtime (dict_config ∅) (fun _ => Ok allow_dmarc_record)
               [(py "Some One", py "someone@example.com")])
            [py "example.com"] (start [])) = Ok false) /\
    session w' = session (start []) /\ calls w' = calls (start []).
Proof.
  apply (rewrite_forward_leaves_alone _ None
           (py "Some One <someone@example.com>") [py "example.com"]).
  - by vm_compute.
  - by vm_compute.
Defined.

Lemma rewrite_forward_partial_witness :
  rewrite_forward
    (test_runtime (dict_config {[ py "domain" := VStr (py "dmarc.example.com") ]})
       (fun _ => Ok reject_dmarc_record) [([], py "someone@example.com")])
    None (py "someone@example.com") (start [])
  = (Ok false,
     edited [ {| hname := py "X-Original-From";
                 hvalue := py "someone@example.com" |} ]
       [ CInsert {| hname := py "X-Original-From";
                    hvalue := py "someone@example.com" |} END;
         CUpdate None (py " someone=40example.com@dmarc.example.com") ]
       (looked_up [py "example.com"] (start []))).
Proof.
  eapply (rewrite_forward_partial _ None (py "someone@example.com")
            [py "example.com"] (start [])
            [py "someone=40example.com@dmarc.example.com"]).
  - by vm_compute.
  - by vm_compute.
  - by vm_compute.
  - by vm_compute.
  - by vm_compute.
  - by vm_compute.
  - by vm_compute.
Defined.

(** ** The capture of the headers *)

Section Capture.
Import Utf8Strict.

Lemma decode_raises (bs : list Z) (e : exn) :
  Utf8.decode bs = Raise e -> e = UnicodeDecodeError.
Proof. unfold Utf8.decode. destruct (mapM id _); [done|]. by intros [= <-]. Qed.

Lemma last_named_cons (n : list Z) (h : Header) (headers : list Header) :
  last_named n (h :: headers)
  = match last_named n headers with
    | Some x => Some x
    | None => if bool_decide (Py.lower (hname h) = n) then Some h else None
    end.
Proof.
  unfold last_named. rewrite filter_cons. case_decide.
  - rewrite bool_decide_true by done. rewrite last_cons.
    by destruct (last _).
  - rewrite bool_decide_false by done. by destruct (last _).
Qed.

(** One turn of the loop. *)
Lemma capture_ok (l0 : locals) (h : Header) (l : locals) :
  capture l0 h = Ok l ->
  exists v, Utf8.decode (hvalue h) = Ok v /\
    mail_headers l = mail_headers l0 ++ [entry_of h v] /\
    from_header l
    = (if bool_decide (Py.lower (hname h) = py "from")
       then Some h else from_header l0) /\
    from_value l
    = (if bool_decide (Py.lower (hname h) = py "from")
       then Some v else from_value l0) /\
    original_from_header l
    = (if bool_decide (Py.lower (hname h) = py "x-original-from")
       then Some h else original_from_header l0) /\
    original_from_value l
    = (if bool_decide (Py.lower (hname h) = py "x-original-from")
       then Some v else original_from_value l0).
Proof.
  unfold capture. destruct (Utf8.decode (hvalue h)) as [v|]; [|done].
  cbn [mbind result_bind lower_name value]. intros H. exists v.
  split; [done|]. revert H.
  destruct (decide (Py.lower (hname h) = py "from")) as [E|E].
  - assert (Py.lower (hname h) <> py "x-original-from") as Hne
      by (rewrite E; intros H; by vm_compute in H).
    rewrite !(bool_decide_true _ E), !(bool_decide_false _ Hne).
    by intros [= <-].
  - rewrite !(bool_decide_false _ E). case_bool_decide; by intros [= <-].
Qed.

Lemma capture_all_ok (headers : list Header) (l0 l : locals) :
  capture_all l0 headers = Ok l ->
  (exists es, mail_headers l = mail_headers l0 ++ es /\
     Forall2 (fun e h => Utf8.decode (hvalue h) = Ok (value e) /\
                         e = entry_of h (value e)) es headers) /\
  from_header l = from_option Some (from_header l0)
                    (last_named (py "from") headers) /\
  original_from_header l = from_option Some (original_from_header l0)
                             (last_named (py "x-original-from") headers) /\
  (bound_to (from_header l0) (from_value l0) ->
   bound_to (from_header l) (from_value l)) /\
  (bound_to (original_from_header l0) (original_from_value l0) ->
   bound_to (original_from_header l) (original_from_value l)).
Proof.
  revert l0. induction headers as [|h headers IH]; intros l0.
  - intros [= <-]. split; [|done]. exists []. by rewrite app_nil_r.
  - cbn [capture_all]. destruct (capture l0 h) as [l1|] eqn:E1; [|done].
    cbn [mbind result_bind]. intros E.
    apply capture_ok in E1 as (v & Hv & Hm & Hf & Hfv & Ho & Hov).
    apply IH in E as ((es & Hes & Hall) & Hfrom & Horig & Hb1 & Hb2).
    rewrite !last_named_cons. split; [|split; [|split; [|split]]].
    + exists (entry_of h v :: es). rewrite Hes, Hm, <- app_assoc.
      split; [done|]. by constructor.
    + rewrite Hfrom, Hf.
      by destruct (last_named (py "from") headers),
                  (bool_decide (Py.lower (hname h) = py "from")).
    + rewrite Horig, Ho.
      by destruct (last_named (py "x-original-from") headers),
                  (bool_decide (Py.lower (hname h) = py "x-original-from")).
    + intros Hb. apply Hb1. rewrite Hf, Hfv.
      by destruct (bool_decide (Py.lower (hname h) = py "from")).
    + intros Hb. apply Hb2. rewrite Ho, Hov.
      by destruct (bool_decide (Py.lower (hname h) = py "x-original-from")).
Qed.

(** X16. The loop of [handle] over the headers, when it ends: every
    header has its entry, in order, with the name as it is and the value
    decoded; [from_header] is the last header named [From], letter case
    apart, and [original_from_header] the last one named
    [X-Original-From]; and each of the two is bound together with its
    decoded value, or not at all. *)
Theorem capture_all_last_wins (headers : list Header) (l : locals) :
  capture_all locals_init headers = Ok l ->
  Forall2 (fun e h => Utf8.decode (hvalue h) = Ok (value e) /\
                      e = entry_of h (value e)) (mail_headers l) headers /\
  from_header l = last_named (py "from") headers /\
  original_from_header l = last_named (py "x-original-from") headers /\
  bound_to (from_header l) (from_value l) /\
  bound_to (original_from_header l) (original_from_value l).
Proof.
  intros ((es & Hes & Hall) & Hf & Ho & Hb1 & Hb2)%capture_all_ok.
  cbn in Hes. subst es. split; [done|].
  split; [rewrite Hf; by destruct (last_named (py "from") headers)|].
  split; [rewrite Ho; by destruct (last_named (py "x-original-from") headers)|].
  split; [by apply Hb1|by apply Hb2].
Qed.

Lemma capture_all_bound (headers : list Header) (l : locals) :
  capture_all locals_init headers = Ok l ->
  bound_to (from_header l) (from_value l) /\
  bound_to (original_from_header l) (original_from_value l).
Proof.
  intros (_ & _ & _ & Hb1 & Hb2)%capture_all_ok.
  split; [by apply Hb1|by apply Hb2].
Qed.

Lemma capture_all_undecodable (headers : list Header) (l0 : locals)
    (h : Header) :
  h ∈ headers -> (forall v, Utf8.decode (hvalue h) <> Ok v) ->
  capture_all l0 headers = Raise UnicodeDecodeError.
Proof.
  intros Hin Hbad. revert l0.
  induction headers as [|x headers IH]; intros l0;
    [by apply elem_of_nil in Hin|].
  cbn [capture_all]. unfold capture.
  destruct (Utf8.decode (hvalue x)) as [v|e] eqn:Ex.
  - apply elem_of_cons in Hin as [->|Hin]; [by destruct (Hbad v)|].
    cbn [mbind result_bind]. repeat case_bool_decide; by apply IH.
  - by apply decode_raises in Ex as ->.
Qed.

Lemma capture_all_decodable (headers : list Header) (l0 : locals) :
  (forall h, h ∈ headers -> exists v, Utf8.decode (hvalue h) = Ok v) ->
  exists l, capture_all l0 headers = Ok l.
Proof.
  revert l0. induction headers as [|x headers IH]; intros l0 Hall;
    [by eexists|].
  cbn [capture_all]. unfold capture.
  destruct (Hall x) as (v & ->); [by left|].
  cbn [mbind result_bind].
  repeat case_bool_decide; apply IH; intros h Hh; apply Hall; by right.
Qed.

Lemma capture_all_entries (headers : list Header) (l : locals)
    (e : header_entry) :
  capture_all locals_init headers = Ok l ->
  e ∈ mail_headers l ->
  exists h, h ∈ headers /\ Utf8.decode (hvalue h) = Ok (value e) /\
            e = entry_of h (value e).
Proof.
  intros ((es & Hes & Hall) & _)%capture_all_ok He.
  cbn in Hes. subst es.
  apply list_elem_of_lookup in He as [i Hi].
  destruct (Forall2_lookup_l _ _ _ _ _ Hall Hi) as (h & Hh & Hd & Heq).
  exists h. split; [|done]. by eapply list_elem_of_lookup_2.
Qed.

End Capture.

Lemma capture_all_last_wins_witness :
  let headers :=
    [ {| hname := py "From"; hvalue := py "first@example.com" |};
      {| hname := py "X-Original-From"; hvalue := py "orig@example.com" |};
      {| hname := py "FROM"; hvalue := py "second@example.com" |} ] in
  exists l, capture_all locals_init headers = Ok l /\
    from_header l = Some {| hname := py "FROM";
                            hvalue := py "second@example.com" |} /\
    from_header l = last_named (py "from") headers /\
    bound_to (from_header l) (from_value l).
Proof.
  cbv zeta. eexists. split; [by vm_compute|].
  split; [by vm_compute|].
  match goal with
  | |- from_header ?l = last_named _ ?hs /\ _ =>
    pose proof (capture_all_last_wins hs l ltac:(by vm_compute))
      as (_ & H1 & _ & H2 & _)
  end.
  split; [exact H1|exact H2].
Defined.

(** ** The handler, continued *)

Section HandleMore.
Context {S : Type} (rt : Runtime S).
Import Utf8Strict.

(** X17. A header whose value is no valid UTF-8 makes [handle] raise
    [UnicodeDecodeError] out of the loop over the headers: nothing is
    decided, no edit is asked for and no domain is looked up. *)
Theorem handle_undecodable_header (w : world S) (h : Header) :
  h ∈ session_headers rt (session w) ->
  (forall v, Utf8.decode (hvalue h) <> Ok v) ->
  handle rt w = (Raise UnicodeDecodeError, w).
Proof.
  intros Hin Hbad. unfold handle. run_M.
  by rewrite (capture_all_undecodable _ _ h Hin Hbad).
Qed.

(** X18. A message none of whose headers meets the requirement is let
    through as it is. When [rewrite.require] is configured, its
    [as_dict()] has a mapping under ["header"], every header of the
    message decodes, and none satisfies the requirement configured under
    its name, [handle] accepts the message and leaves the world as it
    was: no edit, no lookup, whatever the policies of its domains. *)
Theorem handle_required_missing (w : world S) (entry : pyvalue)
    (required_config m : gmap (list Z) pyvalue) :
  get_config_value (app_config rt) (py "rewrite.require") VNone = Ok entry ->
  truthy entry = true ->
  as_dict rt entry = Ok required_config ->
  required_config !! py "header" = Some (VDict m) ->
  (forall h, h ∈ session_headers rt (session w) ->
     exists v, Utf8.decode (hvalue h) = Ok v /\
               ~ satisfies m (entry_of h v)) ->
  handle rt w = (Ok Accept, w).
Proof.
  intros Hentry Htrue Hdict Hhdr Hall.
  destruct (capture_all_decodable (session_headers rt (session w))
              locals_init) as (l & Hl).
  { intros h Hh. destruct (Hall h Hh) as (v & Hv & _). by exists v. }
  assert (check_required_headers required_config (mail_headers l) = Ok false)
    as Hreq.
  { unfold check_required_headers. rewrite Hhdr.
    destruct (required_loop_spec m (mail_headers l)) as (b & -> & Hb).
    destruct b; [|done]. destruct (proj1 Hb eq_refl) as (e & He & Hs).
    destruct (capture_all_entries _ _ _ Hl He) as (h & Hh & Hd & Heq).
    destruct (Hall h Hh) as (v & Hv & Hno).
    rewrite Hd in Hv. injection Hv as <-. rewrite <- Heq in Hno.
    by destruct Hno. }
  assert (required_config_of rt = Ok required_config) as Hrc.
  { unfold required_config_of. rewrite Hentry. unfold mbind, result_bind.
    by rewrite Htrue. }
  unfold handle. run_M. by rewrite Hl, Hrc, Hreq.
Qed.

(** What [handle] does when the reverse branch is not taken. *)
Lemma handle_not_reverse (w : world S) (l : locals)
    (required_config : gmap (list Z) pyvalue) :
  capture_all locals_init (session_headers rt (session w)) = Ok l ->
  required_config_of rt = Ok required_config ->
  check_required_headers required_config (mail_headers l) = Ok true ->
  reverse_off rt l ->
  handle rt w
  = match get_config_value (app_config rt) (py "rewrite.forward")
            (VBool true) with
    | Raise e => (Raise e, w)
    | Ok forward =>
      if truthy forward then
        match from_value l with
        | None => (Raise UnboundLocalError, w)
        | Some v =>
          match rewrite_forward rt (from_header l) v w with
          | (Ok _, w') => (Ok Accept, w')
          | (Raise e, w') => (Raise e, w')
          end
        end
      else (Ok Accept, w)
    end.
Proof.
  intros Hl Hrc Hreq Hoff. unfold handle. run_M.
  rewrite Hl, Hrc, Hreq. cbn [negb].
  assert (forall r : result bool,
    r = Ok false ->
    match original_from_header l with
    | None => Ok false
    | Some _ => r
    end = Ok false) as Hoff'.
  { intros r ->. by destruct (original_from_header l). }
  destruct Hoff as [Hn|(v & Hv & Ht)].
  2: rewrite Hoff' by (rewrite Hv; unfold result_bind; by rewrite Ht).
  1: rewrite Hn.
  all: clear Hoff'.
  all: destruct (get_config_value (app_config rt) (py "rewrite.forward") _)
    as [forward|]; [|done].
  all: destruct (truthy forward); [|done].
  all: destruct (from_value l) as [fv|]; [|done]; cbn [read_local].
  all: by destruct (rewrite_forward rt (from_header l) fv w) as [[]].
Qed.

(** X19. With the required headers found, the reverse branch not taken
    and the forward mode off, [handle] accepts the message and leaves the
    world as it was. *)
Theorem handle_nothing_to_do (w : world S) (l : locals)
    (required_config : gmap (list Z) pyvalue) (forward : pyvalue) :
  capture_all locals_init (session_headers rt (session w)) = Ok l ->
  required_config_of rt = Ok required_config ->
  check_required_headers required_config (mail_headers l) = Ok true ->
  reverse_off rt l ->
  get_config_value (app_config rt) (py "rewrite.forward") (VBool true)
  = Ok forward ->
  truthy forward = false ->
  handle rt w = (Ok Accept, w).
Proof.
  intros Hl Hrc Hreq Hoff Hfwd Ht.
  rewrite (handle_not_reverse w l required_config) by done.
  by rewrite Hfwd, Ht.
Qed.

(** X20. The forward rewrite, from end to end. With the required headers
    found, the reverse branch not taken, the forward mode on, a [From]
    header captured and all its domains rejecting, and when the
    replacement addresses can be built and the session carries out the
    edits: [handle] accepts, having looked up every domain, inserted at
    the end an [X-Original-From] header that carries the octets of the
    [From] header's value as they were, and updated the [From] header to
    the replacement. *)
Theorem handle_forward_rewrites (w : world S) (l : locals)
    (required_config : gmap (list Z) pyvalue) (forward : pyvalue)
    (from : Header) (v : list Z) (ds : list (list Z))
    (replacements : list (list Z)) (replaced : list Z) (s1 s2 : S) :
  capture_all locals_init (session_headers rt (session w)) = Ok l ->
  required_config_of rt = Ok required_config ->
  check_required_headers required_config (mail_headers l) = Ok true ->
  reverse_off rt l ->
  get_config_value (app_config rt) (py "rewrite.forward") (VBool true)
  = Ok forward ->
  truthy forward = true ->
  from_header l = Some from ->
  from_value l = Some v ->
  from_domains rt v = Ok ds ->
  fst (check_all_dmarc_rejections rt ds w) = Ok true ->
  mapM (replacement rt) (getaddresses rt [v]) = Ok replacements ->
  Utf8.encode (py " " ++ Py.join (py ", ") replacements) = Ok replaced ->
  session_insert rt {| hname := py "X-Original-From"; hvalue := hvalue from |}
    END (session w) = (None, s1) ->
  session_update rt (Some from) replaced s1 = (None, s2) ->
  handle rt w
  = (Ok Accept,
     edited s2 [ CInsert {| hname := py "X-Original-From";
                            hvalue := hvalue from |} END;
                 CUpdate (Some from) replaced ]
       (looked_up ds w)).
Proof.
  intros Hl Hrc Hreq Hoff Hfwd Ht Hfrom Hv Hds Hall Hrep Hnew Hins Hupd.
  rewrite (handle_not_reverse w l required_config) by done.
  rewrite Hfwd, Ht, Hv, Hfrom.
  pose proof (capture_all_bound _ _ Hl) as (Hb & _).
  rewrite Hfrom, Hv in Hb. cbn in Hb. apply decode_encode in Hb.
  by rewrite (rewrite_forward_success rt (Some from) v ds w replacements
                (hvalue from) replaced s1 s2).
Qed.

(** X21. The forward branch fails open before it has edited anything.
    With a [From] header captured and its addresses parsed, when the
    evaluation of the domains does not return true (it returns false, or
    it raises), or when a replacement address cannot be built (the
    configuration or the formatting of the address raises), [handle]
    accepts the message, and the session and the edits asked of it are
    as they were. *)
Theorem handle_forward_fails_open (w : world S) (l : locals)
    (required_config : gmap (list Z) pyvalue) (forward : pyvalue)
    (from : Header) (v : list Z) (ds : list (list Z)) :
  capture_all locals_init (session_headers rt (session w)) = Ok l ->
  required_config_of rt = Ok required_config ->
  check_required_headers required_config (mail_headers l) = Ok true ->
  reverse_off rt l ->
  get_config_value (app_config rt) (py "rewrite.forward") (VBool true)
  = Ok forward ->
  truthy forward = true ->
  from_header l = Some from ->
  from_value l = Some v ->
  from_domains rt v = Ok ds ->
  fst (check_all_dmarc_rejections rt ds w) <> Ok true \/
  (exists e, mapM (replacement rt) (getaddresses rt [v]) = Raise e) ->
  exists w',
    handle rt w = (Ok Accept, w') /\
    session w' = session w /\ calls w' = calls w.
Proof.
  intros Hl Hrc Hreq Hoff Hfwd Ht Hfrom Hv Hds Hcase.
  rewrite (handle_not_reverse w l required_config) by done.
  rewrite Hfwd, Ht, Hv, (rewrite_forward_run rt _ v ds w Hds).
  destruct (check_all_world rt ds w) as (looked & _ & Hw & _).
  destruct (check_all_dmarc_rejections rt ds w) as [[[]|e] w1];
    cbn [fst snd] in *; subst w1.
  - destruct Hcase as [Hne|[e He]]; [done|]. rewrite He. by eexists.
  - by eexists.
  - by eexists.
Qed.

Lemma rewrite_reverse_lookups (from_header original : option Header)
    (v : option (list Z)) (w : world S) :
  lookups (snd (rewrite_reverse rt from_header original v w)) = lookups w.
Proof.
  unfold rewrite_reverse, headers_delete, headers_update, edit.
  destruct original as [oh|], v as [[|c v]|]; try done. run_M.
  destruct (session_delete rt oh (session w)) as [[e|] s1]; [done|].
  unfold result_bind. destruct (Utf8.encode (c :: v)) as [bs|]; [|done].
  cbn [session calls lookups].
  by destruct (session_update rt from_header bs s1) as [[e|] s2].
Qed.

(** X22. The reverse rewrite, from end to end. With the required headers
    found, an [X-Original-From] header captured whose value is not empty,
    the reverse mode on, and when the session carries out the edits:
    [handle] accepts, having deleted the [X-Original-From] header and
    updated the [From] header to the octets of its value as they were,
    without looking up any domain. *)
Theorem handle_reverse_restores (w : world S) (l : locals)
    (required_config : gmap (list Z) pyvalue) (original : Header)
    (reverse : pyvalue) (s1 s2 : S) :
  capture_all locals_init (session_headers rt (session w)) = Ok l ->
  required_config_of rt = Ok required_config ->
  check_required_headers required_config (mail_headers l) = Ok true ->
  original_from_header l = Some original ->
  get_config_value (app_config rt) (py "rewrite.reverse") (VBool true)
  = Ok reverse ->
  truthy reverse = true ->
  hvalue original <> [] ->
  session_delete rt original (session w) = (None, s1) ->
  session_update rt (from_header l) (hvalue original) s1 = (None, s2) ->
  handle rt w
  = (Ok Accept,
     edited s2 [ CDelete original;
                 CUpdate (from_header l) (hvalue original) ] w).
Proof.
  intros Hl Hrc Hreq Ho Hrev Ht Hne Hdel Hupd.
  rewrite (handle_reverse rt w l required_config original reverse) by done.
  pose proof (capture_all_bound _ _ Hl) as (_ & Hb).
  rewrite Ho in Hb. destruct (original_from_value l) as [v|]; [|done].
  cbn in Hb. pose proof (decode_encode _ _ Hb) as Henc.
  destruct (hvalue original) as [|b bs] eqn:Hbytes; [done|].
  pose proof (decode_nonempty _ _ _ Hb) as Hv.
  destruct v as [|c v]; [done|].
  unfold rewrite_reverse, headers_delete, headers_update, edit. run_M.
  rewrite Hdel, Henc. unfold result_bind. cbn [session calls lookups].
  rewrite Hupd. unfold edited. by rewrite <- app_assoc.
Qed.

(** X23. In the reverse branch the oracle is never consulted, whatever
    the session answers: the domains looked up are those looked up
    before. *)
Theorem handle_reverse_no_lookup (w : world S) (l : locals)
    (required_config : gmap (list Z) pyvalue) (original : Header)
    (reverse : pyvalue) :
  capture_all locals_init (session_headers rt (session w)) = Ok l ->
  required_config_of rt = Ok required_config ->
  check_required_headers required_config (mail_headers l) = Ok true ->
  original_from_header l = Some original ->
  get_config_value (app_config rt) (py "rewrite.reverse") (VBool true)
  = Ok reverse ->
  truthy reverse = true ->
  lookups (snd (handle rt w)) = lookups w.
Proof.
  intros Hl Hrc Hreq Ho Hrev Ht.
  rewrite (handle_reverse rt w l required_config original reverse) by done.
  destruct (original_from_value l) as [v|]; [|done].
  pose proof (rewrite_reverse_lookups (from_header l) (Some original)
                (Some v) w) as H.
  by destruct (rewrite_reverse _ _ _ _ _) as [[] w'].
Qed.

(** X24. [handle] never discards a message: whenever it returns, it
    returns [Accept]. *)
Theorem handle_never_discards (w w' : world S) (v : verdict) :
  handle rt w = (Ok v, w') -> v = Accept.
Proof.
  unfold handle. run_M.
  destruct (capture_all _ _) as [l|]; [|done].
  destruct (required_config_of rt) as [rc|]; [|done].
  destruct (check_required_headers rc _) as [[]|]; cbn [negb];
    [|by intros [= <- _]|done].
  destruct (match original_from_header l with
            | Some _ => _
            | None => _
            end) as [[]|]; [| |done].
  - destruct (read_local (original_from_value l)) as [ov|]; [|done].
    destruct (rewrite_reverse _ _ _ _ _) as [[] ?]; [|done].
    by intros [= <- _].
  - destruct (get_config_value _ _ _) as [forward|]; [|done].
    destruct (truthy forward); [|by intros [= <- _]].
    destruct (read_local (from_value l)) as [fv|]; [|done].
    destruct (rewrite_forward _ _ _ _) as [[] ?]; [|done].
    by intros [= <- _].
Qed.

End HandleMore.

Lemma handle_undecodable_header_witness :
  let subject := {| hname := py "Subject"; hvalue := [255] |} in
  let from := {| hname := py "From"; hvalue := py "someone@example.com" |} in
  handle (test_runtime (dict_config ∅) (fun _ => Ok reject_dmarc_record)
            [([], py "someone@example.com")])
         (start [from; subject])
  = (Raise UnicodeDecodeError, start [from; subject]).
Proof.
  cbv zeta.
  apply (handle_undecodable_header _ _
           {| hname := py "Subject"; hvalue := [255] |}).
  - cbn. apply list_elem_of_further, list_elem_of_here.
  - intros v H. by vm_compute in H.
Defined.

Lemma handle_required_missing_witness :
  let from := {| hname := py "From"; hvalue := py "someone@example.com" |} in
  handle (with_sections
            (test_runtime
               (dict_config
                  {[ py "rewrite.require" :=
                       VDict (test_requirements (VBool true)) ]})
               (fun _ => Ok reject_dmarc_record)
               [([], py "someone@example.com")]))
         (start [from])
  = (Ok Accept, start [from]).
Proof.
  cbv zeta.
  apply (handle_required_missing _ _
           (VDict (test_requirements (VBool true)))
           (test_requirements (VBool true))
           {[ py "X-Some-Header" := VBool true ]}).
  - by vm_compute.
  - by vm_compute.
  - reflexivity.
  - by vm_compute.
  - intros h Hh. apply list_elem_of_singleton in Hh as ->.
    exists (py "someone@example.com"). split; [by vm_compute|].
    intros Hs. by vm_compute in Hs.
Defined.

Lemma handle_nothing_to_do_witness :
  let from := {| hname := py "From"; hvalue := py "someone@example.com" |} in
  let original := {| hname := py "X-Original-From";
                     hvalue := py "someone@example.org" |} in
  handle (test_runtime
            (dict_config {[ py "rewrite.reverse" := VBool false;
                            py "rewrite.forward" := VBool false ]})
            (fun _ => Ok reject_dmarc_record)
            [([], py "someone@example.com")])
         (start [from; original])
  = (Ok Accept, start [from; original]).
Proof.
  cbv zeta.
  eapply (handle_nothing_to_do _ _ _ ∅ (VBool false)).
  - by vm_compute.
  - by vm_compute.
  - by vm_compute.
  - right. exists (VBool false). split; by vm_compute.
  - by vm_compute.
  - reflexivity.
Defined.

Lemma handle_forward_rewrites_witness :
  let from := {| hname := py "From";
                 hvalue := py "Some One <someone@example.com>" |} in
  let original := {| hname := py "X-Original-From";
                     hvalue := py "Some One <someone@example.com>" |} in
  handle (test_runtime
            (dict_config {[ py "domain" := VStr (py "dmarc.example.com") ]})
            (fun _ => Ok reject_dmarc_record)
            [(py "Some One", py "someone@example.com")])
         (start [from])
  = (Ok Accept,
     edited
       [ {| hname := py "From";
            hvalue := py " Some One <someone=40example.com@dmarc.example.com>" |};
         original ]
       [ CInsert original END;
         CUpdate (Some from)
           (py " Some One <someone=40example.com@dmarc.example.com>") ]
       (looked_up [py "example.com"] (start [from]))).
Proof.
  cbv zeta.
  eapply (handle_forward_rewrites _ _ _ ∅ (VBool true)
            {| hname := py "From";
               hvalue := py "Some One <someone@example.com>" |}
            (py "Some One <someone@example.com>") [py "example.com"]
            [py "Some One <someone=40example.com@dmarc.example.com>"]).
  - by vm_compute.
  - by vm_compute.
  - by vm_compute.
  - left. by vm_compute.
  - by vm_compute.
  - reflexivity.
  - by vm_compute.
  - by vm_compute.
  - by vm_compute.
  - by vm_compute.
  - by vm_compute.
  - by vm_compute.
  - by vm_compute.
  - by vm_compute.
Defined.

Lemma handle_forward_fails_open_witness :
  let from := {| hname := py "From"; hvalue := py "someone@example.com" |} in
  let rt := test_runtime
              (dict_config {[ py "domain" := VStr (py "dmarc.example.com");
                              py "rewrite.quote_char" := VInt 1 ]})
              (fun _ => Ok reject_dmarc_record)
              [([], py "someone@example.com")] in
  exists w',
    handle rt (start [from]) = (Ok Accept, w') /\
    session w' = [from] /\ calls w' = [].
Proof.
  cbv zeta.
  eapply (handle_forward_fails_open _ (start _) _ ∅ (VBool true)
            {| hname := py "From"; hvalue := py "someone@example.com" |}
            (py "someone@example.com") [py "example.com"]).
  - by vm_compute.
  - by vm_compute.
  - by vm_compute.
  - left. by vm_compute.
  - by vm_compute.
  - reflexivity.
  - by vm_compute.
  - by vm_compute.
  - by vm_compute.
  - right. exists TypeError. by vm_compute.
Defined.

Lemma handle_reverse_restores_witness :
  let from := {| hname := py "From";
                 hvalue := py "Some One <someone=40example.com@dmarc.example.com>" |} in
  let original := {| hname := py "X-Original-From";
                     hvalue := py "Some One <someone@example.com>" |} in
  handle (test_runtime (dict_config ∅) (fun _ => Raise DMARCError) [])
         (start [from; original])
  = (Ok Accept,
     edited [ {| hname := py "From";
                 hvalue := py "Some One <someone@example.com>" |} ]
       [ CDelete original; CUpdate (Some from) (hvalue original) ]
       (start [from; original])).
Proof.
  cbv zeta. etrans.
  - eapply (handle_reverse_restores _ _ _ ∅
              {| hname := py "X-Original-From";
                 hvalue := py "Some One <someone@example.com>" |}
              (VBool true)).
    + by vm_compute.
    + by vm_compute.
    + by vm_compute.
    + by vm_compute.
    + by vm_compute.
    + reflexivity.
    + by vm_compute.
    + by vm_compute.
    + by vm_compute.
  - reflexivity.
Defined.

Lemma handle_reverse_no_lookup_witness :
  let original := {| hname := py "X-Original-From";
                     hvalue := py "Some One <someone@example.com>" |} in
  lookups (snd (handle (test_runtime (dict_config ∅)
                          (fun _ => Ok reject_dmarc_record) [])
                       (start [original])))
  = [].
Proof.
  cbv zeta.
  eapply (handle_reverse_no_lookup _ (start _) _ ∅
            {| hname := py "X-Original-From";
               hvalue := py "Some One <someone@example.com>" |}
            (VBool true)).
  - by vm_compute.
  - by vm_compute.
  - by vm_compute.
  - by vm_compute.
  - by vm_compute.
  - reflexivity.
Defined.

Lemma handle_never_discards_witness :
  let from := {| hname := py "From"; hvalue := py "someone@example.com" |} in
  let rt := test_runtime (dict_config ∅) (fun _ => Ok allow_dmarc_record)
              [([], py "someone@example.com")] in
  handle rt (start [from])
  = (Ok Accept, looked_up [py "example.com"] (start [from])) /\
  Accept = Accept.
Proof.
  cbv zeta. split; [by vm_compute|].
  apply (handle_never_discards
           (test_runtime (dict_config ∅) (fun _ => Ok allow_dmarc_record)
              [([], py "someone@example.com")])
           (start [ {| hname := py "From";
                       hvalue := py "someone@example.com" |} ])
           (looked_up [py "example.com"]
              (start [ {| hname := py "From";
                          hvalue := py "someone@example.com" |} ]))
           Accept).
  by vm_compute.
Defined.
